(** * Image formats support detector (AVIF, WebP, JPEG XL)

    A shallow embedding of [detectImageFormats], [callbackIfEnd] and
    [detectImageFormatsDefault] of image-formats-support.ts, together with
    the part of the browser they run on: the timer queue of [setTimeout],
    the [Image] elements whose decode is in flight, the readings of
    [Date.now()] and the class list of the document body.

    Times are milliseconds.  [Date.now()] returns a whole number of them
    and is modelled as [Z], and so are [start], [diff] and [time], which
    are computed from its readings.  [delay] is any number the caller
    passes; it is modelled as a rational [Q] (NaN and the infinities are
    left out).  [null] is [None]; an omitted ([undefined]) field of the
    optional config is [None] as well. *)

From Stdlib Require Import ZArith QArith Qround List Bool String.
From Stdlib Require Import Permutation Lia Lqa.
Import ListNotations.
Open Scope Z_scope.

(** ** Data model *)

(** The three probed formats; the source has one block of code for each. *)
Inductive Format : Type := Avif | Webp | Jxl.

Definition Format_eqb (f g : Format) : bool :=
  match f, g with
  | Avif, Avif | Webp, Webp | Jxl, Jxl => true
  | _, _ => false
  end.

Definition all_formats : list Format := [Avif; Webp; Jxl].

(** [interface ImageFormatConfig]: every field is optional. *)
Module Config.
Record t : Type := mk {
  avif : option bool;
  webp : option bool;
  jxl : option bool;
  delay : option Q
}.
End Config.
Definition ImageFormatConfig : Type := Config.t.

(** [interface ImageFormatFullConfig]. *)
Module FullConfig.
Record t : Type := mk {
  avif : bool;
  webp : bool;
  jxl : bool;
  delay : Q
}.
End FullConfig.
Definition ImageFormatFullConfig : Type := FullConfig.t.

(** [interface ImageFormatResult]: [boolean | null] fields and [time]. *)
Module Result.
Record t : Type := mk {
  avif : option bool;
  webp : option bool;
  jxl : option bool;
  time : Z
}.
End Result.
Definition ImageFormatResult : Type := Result.t.

(** [fullConfig.<f>] *)
Definition enabled (f : Format) (c : ImageFormatFullConfig) : bool :=
  match f with
  | Avif => FullConfig.avif c
  | Webp => FullConfig.webp c
  | Jxl => FullConfig.jxl c
  end.

(** [result.<f>] *)
Definition verdict (f : Format) (r : ImageFormatResult) : option bool :=
  match f with
  | Avif => Result.avif r
  | Webp => Result.webp r
  | Jxl => Result.jxl r
  end.

(** [result.<f> = b;] *)
Definition set_verdict (f : Format) (b : bool) (r : ImageFormatResult)
  : ImageFormatResult :=
  match f with
  | Avif => Result.mk (Some b) (Result.webp r) (Result.jxl r) (Result.time r)
  | Webp => Result.mk (Result.avif r) (Some b) (Result.jxl r) (Result.time r)
  | Jxl => Result.mk (Result.avif r) (Result.webp r) (Some b) (Result.time r)
  end.

(** [result.time = diff;] *)
Definition set_time (diff : Z) (r : ImageFormatResult) : ImageFormatResult :=
  Result.mk (Result.avif r) (Result.webp r) (Result.jxl r) diff.

(** [x !== null] *)
Definition not_null {A : Type} (x : option A) : bool :=
  match x with
  | Some _ => true
  | None => false
  end.

(** ** The platform *)

(** A task registered with [setTimeout(cb, timeout)]; the callback is the
    closure of the block of format [probe]. *)
Record Timer : Type := mkTimer {
  probe : Format;
  timeout : Q
}.

(** One run of the detector.  [fullConfig], [start], [result] and the
    callback are what every closure created by [detectImageFormats]
    captures; [result] is the single object all of them mutate.  [timers]
    are the [setTimeout] tasks not yet run, [images] the [Image] elements
    whose [src] is set, whose handlers are installed and which have
    dispatched neither [load] nor [error] yet.  [user] is the state the
    caller's callback acts on.  [checks] is a ghost history: the values of
    [diff] computed by [callbackIfEnd], oldest first. *)
Record Detection (S : Type) : Type := mkDetection {
  fullConfig : ImageFormatFullConfig;
  start : Z;
  result : ImageFormatResult;
  timers : list Timer;
  images : list Format;
  checks : list Z;
  user : S
}.
Arguments mkDetection {S}.
Arguments fullConfig {S}.
Arguments start {S}.
Arguments result {S}.
Arguments timers {S}.
Arguments images {S}.
Arguments checks {S}.
Arguments user {S}.

(** The readings of [Date.now()] during the synchronous call of
    [detectImageFormats]: one for [start] and one in the [callbackIfEnd] of
    each [else] branch (used only if that branch runs). *)
Record DispatchClock : Type := mkClock {
  at_start : Z;
  at_avif : Z;
  at_webp : Z;
  at_jxl : Z
}.

(** What the event loop can run next.  [t] is what the whole-millisecond
    clock reads when the task runs; in the two decode outcomes it is what
    [Date.now()] returns inside [callbackIfEnd]. *)
Inductive Event : Type :=
| TimerFires (f : Format) (t : Z)
| ImageLoads (f : Format) (t : Z)
| ImageFails (f : Format) (t : Z).

Definition event_time (e : Event) : Z :=
  match e with
  | TimerFires _ t | ImageLoads _ t | ImageFails _ t => t
  end.

(** Take the first pending timer of format [f] out of the queue. *)
Fixpoint take_timer (f : Format) (q : list Timer)
  : option (Timer * list Timer) :=
  match q with
  | [] => None
  | tm :: q' =>
      if Format_eqb (probe tm) f then Some (tm, q')
      else match take_timer f q' with
           | Some (x, rest) => Some (x, tm :: rest)
           | None => None
           end
  end.

(** Take the first in-flight image of format [f] out of the list. *)
Fixpoint take_image (f : Format) (l : list Format) : option (list Format) :=
  match l with
  | [] => None
  | g :: l' =>
      if Format_eqb g f then Some l'
      else match take_image f l' with
           | Some rest => Some (g :: rest)
           | None => None
           end
  end.

(** Nothing is left to run: every timer has fired and every image has
    dispatched its event. *)
Definition quiescent {S : Type} (d : Detection S) : bool :=
  match timers d, images d with
  | [], [] => true
  | _, _ => false
  end.

(** ** The detector *)

Section Detector.

Context {S : Type}.

(** [callback: (result: ImageFormatResult) => void], acting on [S]. *)
Variable callback : ImageFormatResult -> S -> S.

Definition with_result (r : ImageFormatResult) (d : Detection S)
  : Detection S :=
  mkDetection (fullConfig d) (start d) r (timers d) (images d)
              (checks d) (user d).

(** [function callbackIfEnd(config, result, start, callback): boolean].
    Its four arguments are, at every call site, the captured
    [fullConfig], [result], [start] and [callback]; [now] is the reading
    of [Date.now()]. *)
Definition callbackIfEnd (now : Z) (d : Detection S) : bool * Detection S :=
  let config := fullConfig d in
  let diff := now - start d in
  let result :=
    if diff >? Result.time (result d) then set_time diff (result d)
    else result d in
  if (negb (FullConfig.avif config) || not_null (Result.avif result))
     && (negb (FullConfig.webp config) || not_null (Result.webp result))
     && (negb (FullConfig.jxl config) || not_null (Result.jxl result))
  then
    (true,
     mkDetection config (start d) result (timers d) (images d)
                 (checks d ++ [diff]) (callback result (user d)))
  else
    (false,
     mkDetection config (start d) result (timers d) (images d)
                 (checks d ++ [diff]) (user d)).

(** [setTimeout((): void => { ... }, fullConfig.delay)] of block [f]. *)
Definition setTimeout (f : Format) (ms : Q) (d : Detection S)
  : Detection S :=
  mkDetection (fullConfig d) (start d) (result d)
              (timers d ++ [mkTimer f ms]) (images d) (checks d) (user d).

(** One of the three [if (fullConfig.<f>) { setTimeout(...) } else
    { callbackIfEnd(...) }] blocks. *)
Definition dispatch (f : Format) (now : Z) (d : Detection S)
  : Detection S :=
  if enabled f (fullConfig d)
  then setTimeout f (FullConfig.delay (fullConfig d)) d
  else snd (callbackIfEnd now d).

(** The defaulting of the optional config. *)
Definition fullConfigOf (config : option ImageFormatConfig)
  : ImageFormatFullConfig :=
  match config with
  | Some config =>
      FullConfig.mk
        (match Config.avif config with None => true | Some b => b end)
        (match Config.webp config with None => true | Some b => b end)
        (match Config.jxl config with None => true | Some b => b end)
        (match Config.delay config with None => 0%Q | Some ms => ms end)
  | None => FullConfig.mk true true true 0
  end.

(** [export function detectImageFormats(callback, config?)]: the state
    the synchronous call leaves behind, from the caller's state [s]. *)
Definition detectImageFormats (config : option ImageFormatConfig)
           (clk : DispatchClock) (s : S) : Detection S :=
  let fullConfig := fullConfigOf config in
  let start := at_start clk in
  let result := Result.mk None None None 0 in
  let d := mkDetection fullConfig start result [] [] [] s in
  let d := dispatch Avif (at_avif clk) d in
  let d := dispatch Webp (at_webp clk) d in
  dispatch Jxl (at_jxl clk) d.

(** [<f>.onload] ([ok = true]) and [<f>.onerror] ([ok = false]). *)
Definition settle (f : Format) (ok : bool) (now : Z) (d : Detection S)
  : bool * Detection S :=
  callbackIfEnd now (with_result (set_verdict f ok (result d)) d).

(** One task of the event loop; [None] when the platform cannot run it
    (no such timer is pending, no such image is in flight). *)
Definition step (d : Detection S) (e : Event) : option (Detection S) :=
  match e with
  | TimerFires f _ =>
      match take_timer f (timers d) with
      | Some (_, rest) =>
          Some (mkDetection (fullConfig d) (start d) (result d) rest
                            (images d ++ [f]) (checks d) (user d))
      | None => None
      end
  | ImageLoads f t =>
      match take_image f (images d) with
      | Some rest =>
          Some (snd (settle f true t
                       (mkDetection (fullConfig d) (start d) (result d)
                                    (timers d) rest (checks d) (user d))))
      | None => None
      end
  | ImageFails f t =>
      match take_image f (images d) with
      | Some rest =>
          Some (snd (settle f false t
                       (mkDetection (fullConfig d) (start d) (result d)
                                    (timers d) rest (checks d) (user d))))
      | None => None
      end
  end.

Fixpoint exec (d : Detection S) (tr : list Event) : option (Detection S) :=
  match tr with
  | [] => Some d
  | e :: tr' =>
      match step d e with
      | Some d' => exec d' tr'
      | None => None
      end
  end.

(** A decode outcome, seen as one step: the image leaves [images], the
    verdict is written, the check runs. *)
Definition outcome (f : Format) (ok : bool) (t : Z) (rest : list Format)
           (d : Detection S) : Detection S :=
  snd (settle f ok t
         (mkDetection (fullConfig d) (start d) (result d) (timers d) rest
                      (checks d) (user d))).

(** While a probe is pending the callback has not run; once none is, it has
    run once, on the result as it then was. *)
Definition Once (s0 : S) (d : Detection S) : Prop :=
  user d = if quiescent d then callback (result d) s0 else s0.

End Detector.

(** The caller's callback as an observer: it appends the contents of the
    result object at the moment it is called. *)
Definition record_call (r : ImageFormatResult) (log : list ImageFormatResult)
  : list ImageFormatResult := log ++ [r].

Definition detect (config : option ImageFormatConfig) (clk : DispatchClock)
  : Detection (list ImageFormatResult) :=
  detectImageFormats record_call config clk [].

Definition run (d : Detection (list ImageFormatResult)) (tr : list Event)
  : option (Detection (list ImageFormatResult)) :=
  exec record_call d tr.

(** ** The default styling helper *)

(** [DOMTokenList.add(token)]: the class list is an ordered set. *)
Definition classList_add (token : string) (classList : list string)
  : list string :=
  if existsb (String.eqb token) classList then classList
  else classList ++ [token].

(** The completion handler of [detectImageFormatsDefault], acting on
    [_document.body.classList]. *)
Definition onDetected (result : ImageFormatResult) (body : list string)
  : list string :=
  let body :=
    match Result.avif result with
    | Some avif => classList_add (if avif then "has-avif" else "no-avif") body
    | None => body
    end in
  let body :=
    match Result.webp result with
    | Some webp => classList_add (if webp then "has-webp" else "no-webp") body
    | None => body
    end in
  match Result.jxl result with
  | Some jxl => classList_add (if jxl then "has-jxl" else "no-jxl") body
  | None => body
  end.

(** [export function detectImageFormatsDefault(_document)]; [body] is the
    class list of [_document.body] when the call is made. *)
Definition detectImageFormatsDefault (clk : DispatchClock)
           (body : list string) : Detection (list string) :=
  detectImageFormats onDetected
    (Some (Config.mk (Some true) (Some true) (Some true) (Some 0%Q))) clk body.

(** ** Definitions used in the statements and proofs *)

(** The condition of the [if] of [callbackIfEnd], format by format. *)
Definition all_settled (c : ImageFormatFullConfig) (r : ImageFormatResult)
  : bool :=
  forallb (fun f => negb (enabled f c) || not_null (verdict f r)) all_formats.

(** The formats whose probe is still on its way: timer not yet fired, or
    decode not yet reported. *)
Definition pending {S : Type} (d : Detection S) : list Format :=
  map probe (timers d) ++ images d.

(** The null result object [detectImageFormats] starts from. *)
Definition fresh_result : ImageFormatResult := Result.mk None None None 0.

(** Every format is in exactly one phase: disabled (never pending, verdict
    null), pending once (enabled, verdict null), or settled (enabled,
    verdict written). *)
Record Wf {S : Type} (d : Detection S) : Prop := mkWf {
  wf_nodup : NoDup (pending d);
  wf_pending : forall f,
      In f (pending d) <->
      enabled f (fullConfig d) = true /\ verdict f (result d) = None;
  wf_disabled : forall f,
      enabled f (fullConfig d) = false -> verdict f (result d) = None;
  wf_timeouts :
    Forall (fun tm => timeout tm = FullConfig.delay (fullConfig d)) (timers d)
}.

(** Every run can be completed: let the remaining timers fire, then let
    every image report. *)
Definition finish {S : Type} (d : Detection S) (t : Z) : list Event :=
  map (fun tm => TimerFires (probe tm) t) (timers d)
  ++ map (fun f => ImageLoads f t) (images d ++ map probe (timers d)).

(** The largest element of a non-empty list of measurements. *)
Definition maximum (l : list Z) : option Z :=
  match l with
  | [] => None
  | x :: l' => Some (fold_left Z.max l' x)
  end.

(** [time] is the maximum of its initial value 0 and of every measurement
    taken so far. *)
Definition TimeInv {S : Type} (d : Detection S) : Prop :=
  Result.time (result d) = fold_left Z.max (checks d) 0.

(** The statement of the running maximum without the initial value: the
    [time] field is the largest measurement taken so far. *)
Definition time_is_largest_check {S : Type} (d : Detection S) : Prop :=
  maximum (checks d) = Some (Result.time (result d)).

(** The event-loop tasks read the clock in order: no task sees an earlier
    time than the one before it, nor than [last]. *)
Fixpoint chronological (last : Z) (tr : list Event) : Prop :=
  match tr with
  | [] => True
  | e :: tr' => last <= event_time e /\ chronological (event_time e) tr'
  end.

(** The callback of a timer registered with [timeout] runs no earlier than
    [timeout] after its registration.  The timers of a run are registered
    after [start] was read, so the callback runs at some time [tau] with
    [start + timeout <= tau]; the whole-millisecond clock then reads [t],
    [tau] rounded down. *)
Definition fires_on_time (start : Z) (timeout : Q) (t : Z) : Prop :=
  exists tau : Q, Qfloor tau = t /\ (inject_Z start + timeout <= tau)%Q.

(** Timers fire no earlier than their delay: every timer that fires in the
    trace, taken from the queue [q] of registered timers, fires on time for
    the timeout it was registered with. *)
Fixpoint punctual (start : Z) (q : list Timer) (tr : list Event) : Prop :=
  match tr with
  | [] => True
  | TimerFires f t :: tr' =>
      match take_timer f q with
      | Some (tm, rest) =>
          fires_on_time start (timeout tm) t /\ punctual start rest tr'
      | None => True
      end
  | _ :: tr' => punctual start q tr'
  end.

(** The [time] of a result is at least the configured delay. *)
Definition time_reaches_delay (c : ImageFormatFullConfig)
           (r : ImageFormatResult) : Prop :=
  (FullConfig.delay c <= inject_Z (Result.time r))%Q.

(** The callback runs during the synchronous call of [detectImageFormats]
    itself. *)
Definition called_during_dispatch (config : option ImageFormatConfig)
           (clk : DispatchClock) : Prop :=
  user (detect config clk) <> [].

(** The marker classes in the spec's words: [has-<format>] when supported,
    [no-<format>] when not. *)
Definition format_name (f : Format) : string :=
  match f with
  | Avif => "avif"
  | Webp => "webp"
  | Jxl => "jxl"
  end.

Definition marker (f : Format) (supported : bool) : string :=
  ((if supported then "has-" else "no-") ++ format_name f)%string.

(** The part of the handler for one format. *)
Definition mark (f : Format) (v : option bool) (body : list string)
  : list string :=
  match v with
  | Some b => classList_add (marker f b) body
  | None => body
  end.



(** ** Definitions for the further properties *)

(** The format an event-loop task belongs to. *)
Definition event_format (e : Event) : Format :=
  match e with
  | TimerFires f _ | ImageLoads f _ | ImageFails f _ => f
  end.

(** The tasks of format [f] in a trace, in order. *)
Definition events_of (f : Format) (tr : list Event) : list Event :=
  filter (fun e => Format_eqb (event_format e) f) tr.

(** The decode outcome of format [f] at time [t]: [onload] or [onerror]. *)
Definition outcome_event (f : Format) (ok : bool) (t : Z) : Event :=
  if ok then ImageLoads f t else ImageFails f t.

(** What the platform reported for format [f] in a trace: [Some true] if
    its image loaded, [Some false] if it failed, [None] if neither happened
    (the first report counts). *)
Fixpoint reported (f : Format) (tr : list Event) : option bool :=
  match tr with
  | [] => None
  | ImageLoads g _ :: tr' =>
      if Format_eqb g f then Some true else reported f tr'
  | ImageFails g _ :: tr' =>
      if Format_eqb g f then Some false else reported f tr'
  | TimerFires _ _ :: tr' => reported f tr'
  end.

(** Where the probe of format [f] stands after the trace [tr]: not
    requested; waiting for its timer; decoding; or settled with the
    outcome the platform reported. *)
Definition Protocol {S : Type} (f : Format) (tr : list Event)
           (d : Detection S) : Prop :=
  (enabled f (fullConfig d) = false /\ events_of f tr = []) \/
  (In f (map probe (timers d)) /\ events_of f tr = []) \/
  (exists t, In f (images d) /\ events_of f tr = [TimerFires f t]) \/
  (exists t ok t',
      verdict f (result d) = Some ok /\
      events_of f tr = [TimerFires f t; outcome_event f ok t']).

(** How many formats the config enables. *)
Definition enabled_count (c : ImageFormatFullConfig) : nat :=
  List.length (filter (fun f => enabled f c) all_formats).

(** The reading of [Date.now()] in the skip check of format [f]. *)
Definition at_format (f : Format) (clk : DispatchClock) : Z :=
  match f with
  | Avif => at_avif clk
  | Webp => at_webp clk
  | Jxl => at_jxl clk
  end.

(** The clock does not go backwards during the synchronous call. *)
Definition dispatch_chronological (clk : DispatchClock) : Prop :=
  at_start clk <= at_avif clk /\ at_avif clk <= at_webp clk /\
  at_webp clk <= at_jxl clk.

(** Under a clock that does not go backwards, [time] is the latest
    measurement. *)
Definition Latest {S : Type} (last : Z) (d : Detection S) : Prop :=
  start d <= last /\
  Result.time (result d) <= last - start d /\
  Result.time (result d) = List.last (checks d) 0.

(** The marker of one format, if its verdict is definite. *)
Definition slot (f : Format) (v : option bool) : list string :=
  match v with
  | Some b => [marker f b]
  | None => []
  end.

(** The markers of a result, in the order avif, webp, jxl. *)
Definition markers (r : ImageFormatResult) : list string :=
  flat_map (fun f => slot f (verdict f r)) all_formats.

(** *** The untyped build

    The values a JavaScript caller of the UMD build can put in a config
    field (strings and objects are left out). *)
Inductive JsValue : Type :=
| JsUndefined
| JsNull
| JsBoolean (b : bool)
| JsNumber (n : Q).

(** [ToBoolean], as applied by [if (v)] and [!v]. *)
Definition truthy (v : JsValue) : bool :=
  match v with
  | JsUndefined | JsNull => false
  | JsBoolean b => b
  | JsNumber n => negb (Qeq_bool n 0)
  end.

(** [ToNumber], as applied by [setTimeout] to its delay. *)
Definition to_number (v : JsValue) : Q :=
  match v with
  | JsUndefined | JsNull => 0
  | JsBoolean b => if b then 1 else 0
  | JsNumber n => n
  end.

Record JsConfig : Type := mkJsConfig {
  js_avif : JsValue;
  js_webp : JsValue;
  js_jxl : JsValue;
  js_delay : JsValue
}.

(** The [config] argument of the compiled [detectImageFormats]. *)
Inductive JsConfigArg : Type :=
| ArgUndefined
| ArgNull
| ArgObject (config : JsConfig).

(** [v === undefined || v] *)
Definition undefined_or (v : JsValue) : JsValue :=
  match v with
  | JsUndefined => JsBoolean true
  | _ => v
  end.

(** [(_a = v) !== null && _a !== void 0 ? _a : 0] *)
Definition nullish_or_zero (v : JsValue) : JsValue :=
  match v with
  | JsUndefined | JsNull => JsNumber 0
  | _ => v
  end.

(** [var fullConfig = config ? { ... } : { ... }] of the compiled
    [detectImageFormats].  The flags are only ever tested ([if
    (fullConfig.avif)], [!config.avif]) and the delay is only passed to
    [setTimeout], so the record keeps their [ToBoolean] and [ToNumber]. *)
Definition fullConfigOfJs (arg : JsConfigArg) : ImageFormatFullConfig :=
  match arg with
  | ArgObject config =>
      FullConfig.mk (truthy (undefined_or (js_avif config)))
                    (truthy (undefined_or (js_webp config)))
                    (truthy (undefined_or (js_jxl config)))
                    (to_number (nullish_or_zero (js_delay config)))
  | ArgUndefined | ArgNull => FullConfig.mk true true true 0
  end.

(** The compiled [detectImageFormats(callback, config)]: the body of the
    typed one after the untyped defaulting. *)
Definition detectImageFormatsJs {S : Type}
           (callback : ImageFormatResult -> S -> S) (arg : JsConfigArg)
           (clk : DispatchClock) (s : S) : Detection S :=
  let fullConfig := fullConfigOfJs arg in
  let start := at_start clk in
  let result := Result.mk None None None 0 in
  let d := mkDetection fullConfig start result [] [] [] s in
  let d := dispatch callback Avif (at_avif clk) d in
  let d := dispatch callback Webp (at_webp clk) d in
  dispatch callback Jxl (at_jxl clk) d.

(** A typed config seen as the object a TypeScript caller passes. *)
Definition js_of_flag (x : option bool) : JsValue :=
  match x with
  | Some b => JsBoolean b
  | None => JsUndefined
  end.

Definition js_of_delay (x : option Q) : JsValue :=
  match x with
  | Some ms => JsNumber ms
  | None => JsUndefined
  end.

Definition js_of_config (config : option ImageFormatConfig) : JsConfigArg :=
  match config with
  | Some c =>
      ArgObject (mkJsConfig (js_of_flag (Config.avif c))
                            (js_of_flag (Config.webp c))
                            (js_of_flag (Config.jxl c))
                            (js_of_delay (Config.delay c)))
  | None => ArgUndefined
  end.

(** The typed config an untyped one behaves like. *)
Definition normalize (arg : JsConfigArg) : option ImageFormatConfig :=
  match arg with
  | ArgObject c =>
      Some (Config.mk (Some (truthy (undefined_or (js_avif c))))
                      (Some (truthy (undefined_or (js_webp c))))
                      (Some (truthy (undefined_or (js_jxl c))))
                      (Some (to_number (nullish_or_zero (js_delay c)))))
  | ArgUndefined | ArgNull => None
  end.

(** *** The documents of a page

    The class list of the body of every document, by document. *)
Definition Dom : Type := nat -> list string.

(** The completion handler of [detectImageFormatsDefault] for the document
    [_document]: every [classList.add] goes to [_document.body]. *)
Definition onDetectedIn (_document : nat) (result : ImageFormatResult)
           (dom : Dom) : Dom :=
  fun x => if Nat.eqb x _document then onDetected result (dom x) else dom x.

(** [detectImageFormatsDefault(_document: Document = document)], with
    [document] the ambient document of the page. *)
Definition detectImageFormatsDefaultOn (document : nat) (arg : option nat)
           (clk : DispatchClock) (dom : Dom) : Detection Dom :=
  let _document := match arg with
                   | Some x => x
                   | None => document
                   end in
  detectImageFormats (onDetectedIn _document)
    (Some (Config.mk (Some true) (Some true) (Some true) (Some 0%Q))) clk dom.

(** ** Basic facts *)

Lemma Format_eqb_eq (f g : Format) : Format_eqb f g = true <-> f = g.
Proof. destruct f, g; simpl; split; congruence. Qed.

Lemma Format_eqb_refl (f : Format) : Format_eqb f f = true.
Proof. now destruct f. Qed.

Lemma verdict_set_verdict (f g : Format) (b : bool) (r : ImageFormatResult) :
  verdict g (set_verdict f b r) = if Format_eqb f g then Some b else verdict g r.
Proof. destruct f, g; reflexivity. Qed.

Lemma time_set_verdict (f : Format) (b : bool) (r : ImageFormatResult) :
  Result.time (set_verdict f b r) = Result.time r.
Proof. destruct f; reflexivity. Qed.

Lemma verdict_set_time (f : Format) (t : Z) (r : ImageFormatResult) :
  verdict f (set_time t r) = verdict f r.
Proof. destruct f; reflexivity. Qed.

Lemma all_settled_spec (c : ImageFormatFullConfig) (r : ImageFormatResult) :
  all_settled c r = true <->
  forall f, enabled f c = true -> verdict f r <> None.
Proof.
  unfold all_settled, all_formats. simpl. split.
  - intros H f Hf. destruct f; simpl in *; rewrite Hf in H; simpl in H;
      intro E; rewrite E in H; simpl in H;
      repeat rewrite ?andb_false_r, ?andb_false_l in H; discriminate.
  - intros H.
    assert (G : forall f, negb (enabled f c) || not_null (verdict f r) = true).
    { intros f. destruct (enabled f c) eqn:E; [|reflexivity].
      specialize (H f E). destruct (verdict f r); [reflexivity|congruence]. }
    pose proof (G Avif) as Ga. pose proof (G Webp) as Gw.
    pose proof (G Jxl) as Gj. simpl in Ga, Gw, Gj.
    rewrite Ga, Gw, Gj. reflexivity.
Qed.

Lemma take_timer_perm (f : Format) (q : list Timer) (tm : Timer)
      (rest : list Timer) :
  take_timer f q = Some (tm, rest) ->
  probe tm = f /\ Permutation q (tm :: rest).
Proof.
  revert tm rest. induction q as [|x q IH]; intros tm rest; simpl.
  - discriminate.
  - destruct (Format_eqb (probe x) f) eqn:E.
    + intros [= <- <-]. split; [now apply Format_eqb_eq|reflexivity].
    + destruct (take_timer f q) as [[y rest']|]; [|discriminate].
      intros [= <- <-]. destruct (IH y rest' eq_refl) as [Hp HP].
      split; [exact Hp|]. rewrite HP. apply perm_swap.
Qed.

Lemma take_image_perm (f : Format) (l rest : list Format) :
  take_image f l = Some rest -> Permutation l (f :: rest).
Proof.
  revert rest. induction l as [|g l IH]; intros rest; simpl.
  - discriminate.
  - destruct (Format_eqb g f) eqn:E.
    + intros [= <-]. apply Format_eqb_eq in E. subst. reflexivity.
    + destruct (take_image f l) as [rest'|]; [|discriminate].
      intros [= <-]. rewrite (IH rest' eq_refl). apply perm_swap.
Qed.

Lemma take_timer_head (tm : Timer) (q : list Timer) :
  take_timer (probe tm) (tm :: q) = Some (tm, q).
Proof. simpl. now rewrite Format_eqb_refl. Qed.

Lemma take_image_head (f : Format) (l : list Format) :
  take_image f (f :: l) = Some l.
Proof. simpl. now rewrite Format_eqb_refl. Qed.

(** ** The aggregator check in closed form *)

Section Aggregator.

Context {S : Type}.
Variable callback : ImageFormatResult -> S -> S.

(** What one check does: [time] becomes the larger of its old value and
    [diff], the measurement is taken, and the callback runs iff every
    enabled format has a verdict. *)
Lemma callbackIfEnd_eq (now : Z) (d : Detection S) :
  callbackIfEnd callback now d =
  let diff := now - start d in
  let r := set_time (Z.max (Result.time (result d)) diff) (result d) in
  let fire := all_settled (fullConfig d) (result d) in
  (fire,
   mkDetection (fullConfig d) (start d) r (timers d) (images d)
               (checks d ++ [diff])
               (if fire then callback r (user d) else user d)).
Proof.
  unfold callbackIfEnd, all_settled, all_formats.
  destruct d as [c st r tq im ch u]. cbn [fullConfig start result timers
    images checks user forallb enabled verdict].
  destruct r as [ra rw rj rt]. cbn [Result.time].
  destruct (Z.gtb_spec (now - st) rt) as [Hgt|Hle].
  - rewrite (Z.max_r rt (now - st)) by lia.
    cbn [set_time Result.avif Result.webp Result.jxl Result.time].
    rewrite andb_true_r, andb_assoc.
    destruct ((negb (FullConfig.avif c) || not_null ra)
              && (negb (FullConfig.webp c) || not_null rw)
              && (negb (FullConfig.jxl c) || not_null rj)); reflexivity.
  - rewrite (Z.max_l rt (now - st)) by lia.
    cbn [set_time Result.avif Result.webp Result.jxl Result.time].
    rewrite andb_true_r, andb_assoc.
    destruct ((negb (FullConfig.avif c) || not_null ra)
              && (negb (FullConfig.webp c) || not_null rw)
              && (negb (FullConfig.jxl c) || not_null rj)); reflexivity.
Qed.

Lemma callbackIfEnd_closure (now : Z) (d : Detection S) :
  fullConfig (snd (callbackIfEnd callback now d)) = fullConfig d /\
  start (snd (callbackIfEnd callback now d)) = start d /\
  timers (snd (callbackIfEnd callback now d)) = timers d /\
  images (snd (callbackIfEnd callback now d)) = images d.
Proof. rewrite callbackIfEnd_eq. cbn. auto. Qed.

Lemma callbackIfEnd_verdict (now : Z) (d : Detection S) (f : Format) :
  verdict f (result (snd (callbackIfEnd callback now d))) =
  verdict f (result d).
Proof. rewrite callbackIfEnd_eq. cbn. apply verdict_set_time. Qed.

Lemma callbackIfEnd_time (now : Z) (d : Detection S) :
  Result.time (result (snd (callbackIfEnd callback now d))) =
  Z.max (Result.time (result d)) (now - start d).
Proof. rewrite callbackIfEnd_eq. reflexivity. Qed.

Lemma callbackIfEnd_checks (now : Z) (d : Detection S) :
  checks (snd (callbackIfEnd callback now d)) = checks d ++ [now - start d].
Proof. rewrite callbackIfEnd_eq. reflexivity. Qed.

Lemma callbackIfEnd_user (now : Z) (d : Detection S) :
  user (snd (callbackIfEnd callback now d)) =
  if all_settled (fullConfig d) (result d)
  then callback (result (snd (callbackIfEnd callback now d))) (user d)
  else user d.
Proof. rewrite callbackIfEnd_eq. reflexivity. Qed.

Lemma callbackIfEnd_fired (now : Z) (d : Detection S) :
  fst (callbackIfEnd callback now d) =
  all_settled (fullConfig d) (result d).
Proof. rewrite callbackIfEnd_eq. reflexivity. Qed.

Lemma step_closure (d d' : Detection S) (e : Event) :
  step callback d e = Some d' ->
  fullConfig d' = fullConfig d /\ start d' = start d.
Proof.
  destruct e as [f t|f t|f t]; simpl.
  - destruct (take_timer f (timers d)) as [[tm rest]|]; [|discriminate].
    intros [= <-]. auto.
  - destruct (take_image f (images d)) as [rest|]; [|discriminate].
    intros [= <-]. unfold settle.
    destruct (callbackIfEnd_closure t
      (with_result (set_verdict f true (result d))
         (mkDetection (fullConfig d) (start d) (result d) (timers d) rest
            (checks d) (user d)))) as (Hc & Hs & _). auto.
  - destruct (take_image f (images d)) as [rest|]; [|discriminate].
    intros [= <-]. unfold settle.
    destruct (callbackIfEnd_closure t
      (with_result (set_verdict f false (result d))
         (mkDetection (fullConfig d) (start d) (result d) (timers d) rest
            (checks d) (user d)))) as (Hc & Hs & _). auto.
Qed.

Lemma exec_closure (tr : list Event) (d d' : Detection S) :
  exec callback d tr = Some d' ->
  fullConfig d' = fullConfig d /\ start d' = start d.
Proof.
  revert d. induction tr as [|e tr IH]; intros d; simpl.
  - intros [= <-]. auto.
  - destruct (step callback d e) as [d1|] eqn:E; [|discriminate].
    intros H. apply IH in H as [Hc Hs].
    apply step_closure in E as [Hc1 Hs1]. split; congruence.
Qed.

Lemma exec_app (tr1 tr2 : list Event) (d : Detection S) :
  exec callback d (tr1 ++ tr2) =
  match exec callback d tr1 with
  | Some d1 => exec callback d1 tr2
  | None => None
  end.
Proof.
  revert d. induction tr1 as [|e tr1 IH]; intros d; simpl.
  - reflexivity.
  - destruct (step callback d e); [apply IH|reflexivity].
Qed.

(** Case analysis on a step, with the two decode outcomes merged. *)
Lemma step_cases (d d' : Detection S) (e : Event) :
  step callback d e = Some d' ->
  (exists f t tm rest,
      e = TimerFires f t /\ take_timer f (timers d) = Some (tm, rest) /\
      d' = mkDetection (fullConfig d) (start d) (result d) rest
                       (images d ++ [f]) (checks d) (user d)) \/
  (exists (f : Format) (ok : bool) (t : Z) (rest : list Format),
      e = (if ok then ImageLoads f t else ImageFails f t) /\
      take_image f (images d) = Some rest /\
      d' = outcome callback f ok t rest d).
Proof.
  destruct e as [f t|f t|f t]; simpl.
  - destruct (take_timer f (timers d)) as [[tm rest]|] eqn:E; [|discriminate].
    intros [= <-]. left. exists f, t, tm, rest. auto.
  - destruct (take_image f (images d)) as [rest|] eqn:E; [|discriminate].
    intros [= <-]. right. exists f, true, t, rest. auto.
  - destruct (take_image f (images d)) as [rest|] eqn:E; [|discriminate].
    intros [= <-]. right. exists f, false, t, rest. auto.
Qed.

Lemma outcome_closure f ok t rest (d : Detection S) :
  fullConfig (outcome callback f ok t rest d) = fullConfig d /\
  start (outcome callback f ok t rest d) = start d /\
  timers (outcome callback f ok t rest d) = timers d /\
  images (outcome callback f ok t rest d) = rest.
Proof. unfold outcome, settle. rewrite callbackIfEnd_eq. cbn. auto. Qed.

Lemma outcome_verdict f ok t rest (d : Detection S) (g : Format) :
  verdict g (result (outcome callback f ok t rest d)) =
  if Format_eqb f g then Some ok else verdict g (result d).
Proof.
  unfold outcome, settle. rewrite callbackIfEnd_verdict. cbn.
  apply verdict_set_verdict.
Qed.

Lemma outcome_time f ok t rest (d : Detection S) :
  Result.time (result (outcome callback f ok t rest d)) =
  Z.max (Result.time (result d)) (t - start d).
Proof.
  unfold outcome, settle. rewrite callbackIfEnd_time. cbn.
  now rewrite time_set_verdict.
Qed.

Lemma outcome_checks f ok t rest (d : Detection S) :
  checks (outcome callback f ok t rest d) = checks d ++ [t - start d].
Proof. unfold outcome, settle. now rewrite callbackIfEnd_checks. Qed.

Lemma outcome_user f ok t rest (d : Detection S) :
  user (outcome callback f ok t rest d) =
  if all_settled (fullConfig d) (set_verdict f ok (result d))
  then callback (result (outcome callback f ok t rest d)) (user d)
  else user d.
Proof. unfold outcome, settle. now rewrite callbackIfEnd_user. Qed.

End Aggregator.

(** ** Invariants of a detection run *)

Section Invariants.

Context {S : Type}.
Variable callback : ImageFormatResult -> S -> S.

Lemma quiescent_pending (d : Detection S) :
  quiescent d = true <-> pending d = [].
Proof.
  unfold quiescent, pending.
  destruct (timers d), (images d); simpl; split; congruence.
Qed.

Lemma settled_quiescent (d : Detection S) :
  Wf d -> all_settled (fullConfig d) (result d) = quiescent d.
Proof.
  intros W. destruct (quiescent d) eqn:Q.
  - apply all_settled_spec. intros f Hf Hn.
    apply quiescent_pending in Q.
    assert (Hin : In f (pending d)) by (apply (wf_pending d W); auto).
    rewrite Q in Hin. contradiction.
  - destruct (all_settled (fullConfig d) (result d)) eqn:A; [|reflexivity].
    exfalso. rewrite all_settled_spec in A.
    assert (P : pending d = []).
    { destruct (pending d) as [|f l] eqn:P; [reflexivity|].
      assert (Hin : In f (pending d)) by (rewrite P; now left).
      apply (wf_pending d W) in Hin as [He Hn]. elim (A f He Hn). }
    apply quiescent_pending in P. congruence.
Qed.

Lemma Wf_timer (d : Detection S) (f : Format) (tm : Timer)
      (rest : list Timer) :
  Wf d -> take_timer f (timers d) = Some (tm, rest) ->
  Wf (mkDetection (fullConfig d) (start d) (result d) rest
                  (images d ++ [f]) (checks d) (user d)).
Proof.
  intros W E. destruct (take_timer_perm _ _ _ _ E) as [Hp HP].
  assert (PP : Permutation (pending d)
                 (map probe rest ++ images d ++ [f])).
  { unfold pending. rewrite (Permutation_map probe HP). simpl. rewrite Hp.
    rewrite app_assoc. apply Permutation_cons_append. }
  constructor; cbn [pending fullConfig result timers images].
  - apply (Permutation_NoDup PP), (wf_nodup d W).
  - intros g. rewrite <- (wf_pending d W g). split; intros H.
    + apply (Permutation_in _ (Permutation_sym PP) H).
    + apply (Permutation_in _ PP H).
  - apply (wf_disabled d W).
  - pose proof (wf_timeouts d W) as HT. rewrite Forall_forall in *.
    intros x Hx. apply HT. apply (Permutation_in _ (Permutation_sym HP)).
    now right.
Qed.

Lemma Wf_outcome (d : Detection S) (f : Format) (ok : bool) (t : Z)
      (rest : list Format) :
  Wf d -> take_image f (images d) = Some rest ->
  Wf (outcome callback f ok t rest d).
Proof.
  intros W E. pose proof (take_image_perm _ _ _ E) as HP.
  destruct (outcome_closure callback f ok t rest d) as (Hc & Hs & Ht & Hi).
  assert (PP : Permutation (pending d)
                 (f :: pending (outcome callback f ok t rest d))).
  { unfold pending. rewrite Ht, Hi, HP. symmetry. apply Permutation_middle. }
  pose proof (Permutation_NoDup PP (wf_nodup d W)) as ND.
  inversion ND as [|? ? Hnotin ND']; subst.
  assert (Hf : enabled f (fullConfig d) = true /\ verdict f (result d) = None).
  { apply (wf_pending d W). apply (Permutation_in _ (Permutation_sym PP)).
    now left. }
  constructor.
  - exact ND'.
  - intros g. rewrite outcome_verdict, Hc. split.
    + intros Hg. destruct (Format_eqb f g) eqn:Efg.
      * apply Format_eqb_eq in Efg. subst g. contradiction.
      * apply (wf_pending d W).
        apply (Permutation_in _ (Permutation_sym PP)). now right.
    + intros [He Hn]. destruct (Format_eqb f g) eqn:Efg; [discriminate|].
      assert (Hin : In g (pending d)) by (apply (wf_pending d W); auto).
      apply (Permutation_in _ PP) in Hin. destruct Hin as [->|Hin]; [|exact Hin].
      rewrite Format_eqb_refl in Efg. discriminate.
  - intros g. rewrite outcome_verdict, Hc. intros Hg.
    destruct (Format_eqb f g) eqn:Efg.
    + apply Format_eqb_eq in Efg. subst g. destruct Hf as [Hf _]. congruence.
    + apply (wf_disabled d W g Hg).
  - rewrite Ht, Hc. apply (wf_timeouts d W).
Qed.

Lemma Wf_step (d d' : Detection S) (e : Event) :
  Wf d -> step callback d e = Some d' -> Wf d'.
Proof.
  intros W H. apply step_cases in H
    as [(f & t & tm & rest & _ & E & ->)|(f & ok & t & rest & _ & E & ->)].
  - eapply Wf_timer; eauto.
  - apply Wf_outcome; auto.
Qed.

(** The state left by the synchronous call, for a given full config. *)
Lemma detectImageFormats_unfold (config : option ImageFormatConfig)
      (clk : DispatchClock) (s : S) :
  detectImageFormats callback config clk s =
  dispatch callback Jxl (at_jxl clk)
    (dispatch callback Webp (at_webp clk)
       (dispatch callback Avif (at_avif clk)
          (mkDetection (fullConfigOf config) (at_start clk) fresh_result
                       [] [] [] s))).
Proof. reflexivity. Qed.

(** The synchronous call writes no verdict and starts no decode: it only
    registers one timer, with the configured delay, per enabled format, in
    the order avif, webp, jxl. *)
Lemma detectImageFormats_initial (config : option ImageFormatConfig)
      (clk : DispatchClock) (s : S) :
  let d := detectImageFormats callback config clk s in
  fullConfig d = fullConfigOf config /\
  start d = at_start clk /\
  (forall f, verdict f (result d) = None) /\
  timers d =
    map (fun f => mkTimer f (FullConfig.delay (fullConfigOf config)))
        (filter (fun f => enabled f (fullConfigOf config)) all_formats) /\
  images d = [].
Proof.
  rewrite detectImageFormats_unfold.
  destruct (fullConfigOf config) as [a w j ms].
  unfold dispatch.
  destruct a, w, j; cbn -[Z.sub Z.max Z.gtb callbackIfEnd];
    rewrite ?callbackIfEnd_eq; cbn -[Z.sub Z.max Z.gtb];
    rewrite ?callbackIfEnd_eq; cbn -[Z.sub Z.max Z.gtb];
    rewrite ?callbackIfEnd_eq; cbn -[Z.sub Z.max Z.gtb];
    (repeat split; try reflexivity; intros f; destruct f; reflexivity).
Qed.

Lemma Wf_detectImageFormats (config : option ImageFormatConfig)
      (clk : DispatchClock) (s : S) :
  Wf (detectImageFormats callback config clk s).
Proof.
  destruct (detectImageFormats_initial config clk s)
    as (Hc & Hs & Hv & Ht & Hi).
  constructor.
  - unfold pending. rewrite Ht, Hi, app_nil_r, map_map. cbn [probe].
    rewrite map_id. apply NoDup_filter.
    repeat constructor; simpl; intuition congruence.
  - intros f. unfold pending. rewrite Ht, Hi, app_nil_r, map_map, Hc.
    cbn [probe]. rewrite map_id, filter_In. split.
    + intros [_ He]. auto.
    + intros [He _]. split; [|exact He]. destruct f; simpl; auto.
  - intros f _. apply Hv.
  - rewrite Ht, Hc. apply Forall_forall. intros tm Hin.
    apply in_map_iff in Hin as (f & <- & _). reflexivity.
Qed.

Lemma Wf_exec (tr : list Event) (d d' : Detection S) :
  Wf d -> exec callback d tr = Some d' -> Wf d'.
Proof.
  revert d. induction tr as [|e tr IH]; intros d W; simpl.
  - now intros [= <-].
  - destruct (step callback d e) as [d1|] eqn:E; [|discriminate].
    apply IH. eapply Wf_step; eauto.
Qed.

End Invariants.

(** ** When the callback runs *)

Section Firing.

Context {S : Type}.
Variable callback : ImageFormatResult -> S -> S.

Lemma all_settled_ext (c : ImageFormatFullConfig) (r r' : ImageFormatResult) :
  (forall f, verdict f r = verdict f r') -> all_settled c r = all_settled c r'.
Proof.
  intros H. unfold all_settled, all_formats. cbn [forallb].
  now rewrite (H Avif), (H Webp), (H Jxl).
Qed.

Lemma all_settled_false (c : ImageFormatFullConfig) (r : ImageFormatResult)
      (f : Format) :
  enabled f c = true -> verdict f r = None -> all_settled c r = false.
Proof.
  intros He Hn. destruct (all_settled c r) eqn:A; [|reflexivity].
  rewrite all_settled_spec in A. elim (A f He Hn).
Qed.

Lemma all_settled_none_enabled (c : ImageFormatFullConfig)
      (r : ImageFormatResult) :
  (forall f, enabled f c = false) -> all_settled c r = true.
Proof.
  intros H. apply all_settled_spec. intros f Hf. rewrite H in Hf. discriminate.
Qed.

(** A block of the dispatcher that runs while some enabled format has no
    verdict yet does not reach the callback and writes no verdict. *)
Lemma dispatch_silent (g f : Format) (now : Z) (d : Detection S) :
  enabled f (fullConfig d) = true -> verdict f (result d) = None ->
  user (dispatch callback g now d) = user d /\
  fullConfig (dispatch callback g now d) = fullConfig d /\
  (forall h, verdict h (result (dispatch callback g now d)) =
             verdict h (result d)) /\
  (enabled g (fullConfig d) = false ->
   fst (callbackIfEnd callback now d) = false).
Proof.
  intros He Hn. unfold dispatch.
  pose proof (all_settled_false _ _ _ He Hn) as A.
  destruct (enabled g (fullConfig d)).
  - cbn. repeat split; auto. discriminate.
  - rewrite callbackIfEnd_user, A, callbackIfEnd_fired, A.
    destruct (callbackIfEnd_closure callback now d) as (Hc & _).
    repeat split; auto. intros h. apply callbackIfEnd_verdict.
Qed.

Lemma detectImageFormats_silent (config : option ImageFormatConfig)
      (clk : DispatchClock) (s : S) (f : Format) :
  enabled f (fullConfigOf config) = true ->
  user (detectImageFormats callback config clk s) = s.
Proof.
  intros He. rewrite detectImageFormats_unfold.
  set (d0 := mkDetection (fullConfigOf config) (at_start clk) fresh_result
                         [] [] [] s).
  assert (H0 : enabled f (fullConfig d0) = true) by exact He.
  assert (N0 : verdict f (result d0) = None) by (destruct f; reflexivity).
  destruct (dispatch_silent Avif f (at_avif clk) d0 H0 N0)
    as (U1 & C1 & V1 & _).
  set (d1 := dispatch callback Avif (at_avif clk) d0) in *.
  assert (H1 : enabled f (fullConfig d1) = true) by (rewrite C1; exact H0).
  assert (N1 : verdict f (result d1) = None) by (rewrite V1; exact N0).
  destruct (dispatch_silent Webp f (at_webp clk) d1 H1 N1)
    as (U2 & C2 & V2 & _).
  set (d2 := dispatch callback Webp (at_webp clk) d1) in *.
  assert (H2 : enabled f (fullConfig d2) = true) by (rewrite C2; exact H1).
  assert (N2 : verdict f (result d2) = None) by (rewrite V2; exact N1).
  destruct (dispatch_silent Jxl f (at_jxl clk) d2 H2 N2) as (U3 & _).
  rewrite U3, U2, U1. reflexivity.
Qed.

Lemma detectImageFormats_busy (config : option ImageFormatConfig)
      (clk : DispatchClock) (s : S) (f : Format) :
  enabled f (fullConfigOf config) = true ->
  quiescent (detectImageFormats callback config clk s) = false.
Proof.
  intros He.
  destruct (detectImageFormats_initial callback config clk s)
    as (_ & _ & _ & Ht & _).
  destruct (quiescent _) eqn:Q; [|reflexivity].
  apply quiescent_pending in Q. unfold pending in Q.
  apply app_eq_nil in Q as [Q _]. rewrite Ht in Q.
  apply map_eq_nil in Q. apply map_eq_nil in Q.
  assert (Hin : In f (filter (fun f => enabled f (fullConfigOf config))
                             all_formats)).
  { apply filter_In. split; [destruct f; simpl; auto|exact He]. }
  rewrite Q in Hin. contradiction.
Qed.

Lemma Once_step (s0 : S) (d d' : Detection S) (e : Event) :
  Wf d -> Once callback s0 d -> step callback d e = Some d' -> Once callback s0 d'.
Proof.
  intros W O H. pose proof (Wf_step callback _ _ _ W H) as W'.
  apply step_cases in H
    as [(f & t & tm & rest & _ & E & ->)|(f & ok & t & rest & _ & E & ->)].
  - unfold Once in *. cbn [user result].
    assert (Q : quiescent d = false).
    { unfold quiescent. destruct (timers d); [discriminate|reflexivity]. }
    rewrite Q in O.
    assert (Q' : quiescent (mkDetection (fullConfig d) (start d) (result d)
                   rest (images d ++ [f]) (checks d) (user d)) = false).
    { unfold quiescent. cbn. destruct rest; destruct (images d); reflexivity. }
    rewrite Q'. exact O.
  - unfold Once in *.
    assert (Q : quiescent d = false).
    { unfold quiescent. destruct (timers d); destruct (images d);
        try reflexivity; discriminate. }
    rewrite Q in O. rewrite outcome_user, O.
    rewrite <- (settled_quiescent _ W').
    destruct (outcome_closure callback f ok t rest d) as (Hc & _).
    rewrite Hc.
    rewrite (all_settled_ext (fullConfig d)
               (result (outcome callback f ok t rest d))
               (set_verdict f ok (result d))); [reflexivity|].
    intros g. rewrite outcome_verdict, verdict_set_verdict. reflexivity.
Qed.

Lemma Once_exec (s0 : S) (tr : list Event) (d d' : Detection S) :
  Wf d -> Once callback s0 d -> exec callback d tr = Some d' -> Once callback s0 d'.
Proof.
  revert d. induction tr as [|e tr IH]; intros d W O; simpl.
  - now intros [= <-].
  - destruct (step callback d e) as [d1|] eqn:E; [|discriminate].
    apply IH; [eapply Wf_step|eapply Once_step]; eauto.
Qed.

Lemma Once_detectImageFormats (config : option ImageFormatConfig)
      (clk : DispatchClock) (s : S) (f : Format) :
  enabled f (fullConfigOf config) = true ->
  Once callback s (detectImageFormats callback config clk s).
Proof.
  intros He. unfold Once.
  rewrite (detectImageFormats_busy config clk s f He).
  apply (detectImageFormats_silent config clk s f He).
Qed.

Lemma fire_all (t : Z) (q : list Timer) (d : Detection S) :
  timers d = q ->
  exists d', exec callback d (map (fun tm => TimerFires (probe tm) t) q)
             = Some d' /\
             timers d' = [] /\ images d' = images d ++ map probe q.
Proof.
  revert d. induction q as [|tm q IH]; intros d Hq.
  - exists d. simpl. rewrite app_nil_r. auto.
  - cbn [map exec step]. rewrite Hq, take_timer_head.
    destruct (IH (mkDetection (fullConfig d) (start d) (result d) q
                    (images d ++ [probe tm]) (checks d) (user d)) eq_refl)
      as (d' & E & Ht & Hi).
    exists d'. split; [exact E|]. split; [exact Ht|].
    rewrite Hi. cbn. now rewrite <- app_assoc.
Qed.

Lemma load_all (t : Z) (l : list Format) (d : Detection S) :
  images d = l -> timers d = [] ->
  exists d', exec callback d (map (fun f => ImageLoads f t) l) = Some d' /\
             timers d' = [] /\ images d' = [].
Proof.
  revert d. induction l as [|f l IH]; intros d Hl Ht.
  - exists d. simpl. auto.
  - cbn [map exec step]. rewrite Hl, take_image_head.
    fold (outcome callback f true t l d).
    destruct (outcome_closure callback f true t l d) as (_ & _ & Ht' & Hi').
    apply IH; congruence.
Qed.

Lemma finish_quiescent (d : Detection S) (t : Z) :
  exists d', exec callback d (finish d t) = Some d' /\ quiescent d' = true.
Proof.
  unfold finish. destruct (fire_all t (timers d) d eq_refl)
    as (d1 & E1 & T1 & I1).
  destruct (load_all t (images d ++ map probe (timers d)) d1 I1 T1)
    as (d2 & E2 & T2 & I2).
  exists d2. rewrite exec_app, E1, E2. split; [reflexivity|].
  unfold quiescent. now rewrite T2, I2.
Qed.

End Firing.

(** ** The [time] field *)

Lemma fold_left_max_le (l : list Z) (a : Z) : a <= fold_left Z.max l a.
Proof.
  revert a. induction l as [|x l IH]; intros a; simpl; [lia|].
  specialize (IH (Z.max a x)). lia.
Qed.

Lemma fold_left_max_absorb (l : list Z) (a x : Z) :
  In x l -> a <= x -> fold_left Z.max l a = fold_left Z.max l x.
Proof.
  revert a. induction l as [|y l IH]; intros a Hin Hle; simpl.
  - contradiction.
  - destruct Hin as [->|Hin].
    + now rewrite Z.max_id, Z.max_r.
    + destruct (Z.le_ge_cases x y) as [Hxy|Hyx].
      * rewrite (Z.max_r a y) by lia. now rewrite (Z.max_r x y).
      * rewrite (Z.max_l x y) by lia.
        destruct (Z.le_ge_cases a y) as [Hay|Hya].
        -- rewrite (Z.max_r a y) by lia. apply IH; auto.
        -- rewrite (Z.max_l a y) by lia. apply IH; auto.
Qed.

(** With a non-negative measurement among them, the maximum of 0 and the
    measurements is the maximum of the measurements. *)
Lemma maximum_with_zero (l : list Z) :
  (exists x, In x l /\ 0 <= x) -> maximum l = Some (fold_left Z.max l 0).
Proof.
  intros (x & Hin & Hx). destruct l as [|y l]; [contradiction|].
  simpl. f_equal. destruct Hin as [->|Hin].
  - now rewrite Z.max_r.
  - destruct (Z.le_ge_cases 0 y) as [Hy|Hy].
    + now rewrite Z.max_r.
    + rewrite Z.max_l by lia.
      rewrite (fold_left_max_absorb l y x Hin) by lia.
      now rewrite (fold_left_max_absorb l 0 x Hin).
Qed.

Section Time.

Context {S : Type}.
Variable callback : ImageFormatResult -> S -> S.

Lemma TimeInv_callbackIfEnd (now : Z) (d : Detection S) :
  TimeInv d -> TimeInv (snd (callbackIfEnd callback now d)).
Proof.
  unfold TimeInv. intros H.
  rewrite callbackIfEnd_time, callbackIfEnd_checks, fold_left_app, H.
  reflexivity.
Qed.

Lemma TimeInv_dispatch (g : Format) (now : Z) (d : Detection S) :
  TimeInv d -> TimeInv (dispatch callback g now d).
Proof.
  intros H. unfold dispatch. destruct (enabled g (fullConfig d)).
  - exact H.
  - now apply TimeInv_callbackIfEnd.
Qed.

Lemma TimeInv_detectImageFormats (config : option ImageFormatConfig)
      (clk : DispatchClock) (s : S) :
  TimeInv (detectImageFormats callback config clk s).
Proof.
  rewrite detectImageFormats_unfold.
  repeat apply TimeInv_dispatch. reflexivity.
Qed.

Lemma TimeInv_step (d d' : Detection S) (e : Event) :
  TimeInv d -> step callback d e = Some d' -> TimeInv d'.
Proof.
  intros T H. apply step_cases in H
    as [(f & t & tm & rest & _ & E & ->)|(f & ok & t & rest & _ & E & ->)].
  - exact T.
  - unfold TimeInv in *.
    rewrite outcome_time, outcome_checks, fold_left_app, T. reflexivity.
Qed.

Lemma TimeInv_exec (tr : list Event) (d d' : Detection S) :
  TimeInv d -> exec callback d tr = Some d' -> TimeInv d'.
Proof.
  revert d. induction tr as [|e tr IH]; intros d T; simpl.
  - now intros [= <-].
  - destruct (step callback d e) as [d1|] eqn:E; [|discriminate].
    apply IH. eapply TimeInv_step; eauto.
Qed.

Lemma time_step_le (d d' : Detection S) (e : Event) :
  step callback d e = Some d' ->
  Result.time (result d) <= Result.time (result d').
Proof.
  intros H. apply step_cases in H
    as [(f & t & tm & rest & _ & E & ->)|(f & ok & t & rest & _ & E & ->)].
  - cbn. lia.
  - rewrite outcome_time. lia.
Qed.

Lemma time_exec_le (tr : list Event) (d d' : Detection S) :
  exec callback d tr = Some d' ->
  Result.time (result d) <= Result.time (result d').
Proof.
  revert d. induction tr as [|e tr IH]; intros d; simpl.
  - intros [= <-]. lia.
  - destruct (step callback d e) as [d1|] eqn:E; [|discriminate].
    intros H. apply IH in H. apply time_step_le in E. lia.
Qed.

End Time.

(** C6, as amended.  Across every invocation of [callbackIfEnd] the [time]
    field never decreases: the invocation records the measurement
    [now - start] and leaves [time] at the larger of its old value and that
    measurement.  At every point of a detection run [time] is the maximum
    of 0, its initial value, and of all measurements taken at the checks so
    far; it is the maximum of the measurements alone as soon as one of them
    is non-negative. *)
Theorem time_running_maximum :
  forall (S : Type) (callback : ImageFormatResult -> S -> S),
    (forall (now : Z) (d : Detection S),
        let d' := snd (callbackIfEnd callback now d) in
        checks d' = checks d ++ [now - start d] /\
        Result.time (result d') = Z.max (Result.time (result d))
                                        (now - start d) /\
        Result.time (result d) <= Result.time (result d')) /\
    (forall (d d' : Detection S) (tr : list Event),
        exec callback d tr = Some d' ->
        Result.time (result d) <= Result.time (result d')) /\
    (forall (config : option ImageFormatConfig) (clk : DispatchClock) (s : S)
            (tr : list Event) (d : Detection S),
        exec callback (detectImageFormats callback config clk s) tr = Some d ->
        Result.time (result d) = fold_left Z.max (checks d) 0 /\
        ((exists x, In x (checks d) /\ 0 <= x) -> time_is_largest_check d)).
Proof.
  intros S callback. split; [|split].
  - intros now d. cbn zeta.
    rewrite callbackIfEnd_checks, callbackIfEnd_time.
    repeat split; lia.
  - intros d d' tr. apply time_exec_le.
  - intros config clk s tr d H.
    pose proof (TimeInv_exec callback tr _ _
                  (TimeInv_detectImageFormats callback config clk s) H) as T.
    split; [exact T|]. intros Hx. unfold time_is_largest_check.
    rewrite T. now apply maximum_with_zero.
Qed.

(** A run with avif and jxl enabled and webp disabled: the measurements
    are 2, 6 and 8, and [time] ends at 8. *)
Lemma time_running_maximum_witness :
  let d := mkDetection (FullConfig.mk true false true 5) 100
                       (Result.mk (Some true) None (Some false) 8)
                       [] [] [2; 6; 8]
                       [Result.mk (Some true) None (Some false) 8] in
  Result.time (result d) = fold_left Z.max (checks d) 0 /\
  time_is_largest_check d.
Proof.
  cbv zeta.
  destruct (time_running_maximum (list ImageFormatResult) record_call)
    as (_ & _ & Hrun).
  destruct (Hrun (Some (Config.mk (Some true) (Some false) None (Some 5%Q)))
                 (mkClock 100 101 102 103) []
                 [TimerFires Jxl 105; TimerFires Avif 105; ImageFails Jxl 106;
                  ImageLoads Avif 108]
                 (mkDetection (FullConfig.mk true false true 5) 100
                        (Result.mk (Some true) None (Some false) 8)
                        [] [] [2; 6; 8]
                        [Result.mk (Some true) None (Some false) 8])
                 eq_refl) as [Hmax Hlargest].
  split; [exact Hmax|]. apply Hlargest.
  exists 2. simpl. split; [auto|lia].
Defined.

(** C6 as stated fails when the clock is set back below [start]: with avif
    disabled, [start] read as 10 and the skip check reading 5, the only
    measurement is -5 while [time] stays 0. *)
Lemma time_not_largest_check_when_clock_set_back :
  let d := detectImageFormats record_call
             (Some (Config.mk (Some false) None None None))
             (mkClock 10 5 5 5) [] in
  checks d = [-5] /\ Result.time (result d) = 0 /\
  ~ time_is_largest_check d.
Proof.
  cbv zeta. split; [reflexivity|]. split; [reflexivity|].
  unfold time_is_largest_check. vm_compute. discriminate.
Qed.

(** ** What the callback is called with *)

(** A step adds at most one call, and only a decode outcome that leaves
    nothing pending does. *)
Lemma log_step (d d' : Detection (list ImageFormatResult)) (e : Event) :
  step record_call d e = Some d' ->
  user d' = user d \/
  (user d' = user d ++ [result d'] /\
   all_settled (fullConfig d') (result d') = true /\
   exists (f : Format) (ok : bool) (t : Z),
     e = (if ok then ImageLoads f t else ImageFails f t) /\
     In f (images d) /\
     Result.time (result d') = Z.max (Result.time (result d)) (t - start d)).
Proof.
  intros H. apply step_cases in H
    as [(f & t & tm & rest & _ & E & ->)|(f & ok & t & rest & He & E & ->)].
  - left. reflexivity.
  - rewrite outcome_user.
    destruct (all_settled (fullConfig d) (set_verdict f ok (result d))) eqn:A;
      [right|left; reflexivity].
    split; [reflexivity|]. split.
    + destruct (outcome_closure record_call f ok t rest d) as (Hc & _).
      rewrite Hc, <- A. apply all_settled_ext. intros g.
      now rewrite outcome_verdict, verdict_set_verdict.
    + exists f, ok, t. split; [exact He|]. split; [|apply outcome_time].
      apply take_image_perm in E.
      apply (Permutation_in _ (Permutation_sym E)). now left.
Qed.

(** The calls made during the synchronous call: there are some only when
    no format is enabled, and then the result is still all null. *)
Lemma detect_log (config : option ImageFormatConfig) (clk : DispatchClock)
      (r : ImageFormatResult) :
  In r (user (detect config clk)) ->
  (forall f, enabled f (fullConfigOf config) = false) /\
  (forall f, verdict f r = None) /\ 0 <= Result.time r.
Proof.
  unfold detect. rewrite detectImageFormats_unfold.
  destruct (fullConfigOf config) as [a w j ms].
  unfold dispatch.
  destruct a, w, j; cbn -[Z.sub Z.max Z.gtb callbackIfEnd];
    rewrite ?callbackIfEnd_eq; cbn -[Z.sub Z.max Z.gtb];
    rewrite ?callbackIfEnd_eq; cbn -[Z.sub Z.max Z.gtb];
    rewrite ?callbackIfEnd_eq; cbn -[Z.sub Z.max Z.gtb];
    try contradiction.
  unfold record_call. cbn -[Z.sub Z.max Z.gtb].
  intros [<-|[<-|[<-|[]]]]; cbn -[Z.sub Z.max Z.gtb];
    (split; [intros f; destruct f; reflexivity|]);
    (split; [intros f; destruct f; reflexivity|lia]).
Qed.

(** A property of results that holds whenever the check fires holds of
    everything the callback was called with. *)
Lemma logged_exec (P : ImageFormatResult -> Prop) (tr : list Event)
      (d d' : Detection (list ImageFormatResult)) :
  Wf d ->
  (forall d1 : Detection (list ImageFormatResult),
      Wf d1 -> fullConfig d1 = fullConfig d ->
      all_settled (fullConfig d1) (result d1) = true ->
              P (result d1)) ->
  Forall P (user d) -> run d tr = Some d' -> Forall P (user d').
Proof.
  unfold run. revert d. induction tr as [|e tr IH]; intros d W HP F; simpl.
  - now intros [= <-].
  - destruct (step record_call d e) as [d1|] eqn:E; [|discriminate].
    pose proof (Wf_step record_call _ _ _ W E) as W1.
    destruct (step_closure record_call _ _ _ E) as [Hc _].
    apply IH; [exact W1| |].
    + intros d2 W2 Hc2. apply HP; [exact W2|congruence].
    + destruct (log_step _ _ _ E) as [->|(-> & A & _)]; [exact F|].
      apply Forall_app. split; [exact F|]. constructor; [|constructor].
      apply HP; auto.
Qed.

Lemma fires_on_time_bound (start : Z) (timeout : Q) (t : Z) :
  fires_on_time start timeout t ->
  (inject_Z start + timeout < inject_Z t + 1)%Q.
Proof.
  intros (tau & <- & Hle).
  pose proof (Qlt_floor tau) as Hlt. rewrite inject_Z_plus in Hlt.
  change (inject_Z 1) with 1%Q in Hlt. lra.
Qed.

(** Timing of the calls, under a chronological event loop with punctual
    timers: a check that follows the firing of a timer measures more than
    the timeout less one millisecond. *)
Lemma timed_exec (tr : list Event) (last : Z)
      (d d' : Detection (list ImageFormatResult)) :
  Wf d ->
  chronological last tr ->
  punctual (start d) (timers d) tr ->
  (images d <> [] ->
   (inject_Z (start d) + FullConfig.delay (fullConfig d)
    < inject_Z last + 1)%Q) ->
  Forall (fun r => (FullConfig.delay (fullConfig d)
                    < inject_Z (Result.time r) + 1)%Q) (user d) ->
  run d tr = Some d' ->
  Forall (fun r => (FullConfig.delay (fullConfig d)
                    < inject_Z (Result.time r) + 1)%Q) (user d').
Proof.
  unfold run. revert last d.
  induction tr as [|e tr IH]; intros last d W C Pu I F; cbn [exec].
  - now intros [= <-].
  - destruct (step record_call d e) as [d1|] eqn:E; [|discriminate].
    destruct C as [Hle C].
    pose proof (Wf_step record_call _ _ _ W E) as W1.
    destruct (step_closure record_call _ _ _ E) as [Hc Hs].
    pose proof (log_step _ _ _ E) as L.
    intros H. rewrite <- Hc.
    apply (IH (event_time e) d1 W1 C); try rewrite Hc; try rewrite Hs;
      [| | |exact H]; clear IH H.
    + apply step_cases in E
        as [(f & t & tm & rest & -> & T & ->)|(f & ok & t & rest & -> & T & ->)].
      * cbn [punctual] in Pu. rewrite T in Pu. apply Pu.
      * destruct (outcome_closure record_call f ok t rest d)
          as (_ & _ & Ht & _).
        rewrite Ht. destruct ok; exact Pu.
    + intros _. apply step_cases in E
        as [(f & t & tm & rest & -> & T & ->)|(f & ok & t & rest & -> & T & ->)].
      * cbn [punctual] in Pu. rewrite T in Pu. destruct Pu as [Hfire _].
        apply fires_on_time_bound in Hfire.
        assert (Htm : timeout tm = FullConfig.delay (fullConfig d)).
        { pose proof (wf_timeouts d W) as HT. rewrite Forall_forall in HT.
          apply HT. destruct (take_timer_perm _ _ _ _ T) as [_ HP].
          apply (Permutation_in _ (Permutation_sym HP)). now left. }
        cbn [event_time]. now rewrite <- Htm.
      * assert (Hne : images d <> [])
          by (destruct (images d); discriminate).
        specialize (I Hne).
        assert (Hlt : (last <= t)%Z) by (destruct ok; exact Hle).
        assert (Et : event_time (if ok then ImageLoads f t
                                 else ImageFails f t) = t)
          by now destruct ok.
        rewrite Et. rewrite Zle_Qle in Hlt. lra.
    + destruct L as [->|(-> & _ & f & ok & t & -> & Hin & Ht)]; [exact F|].
      apply Forall_app. split; [exact F|]. constructor; [|constructor].
      assert (Hne : images d <> [])
        by (intros Hnil; rewrite Hnil in Hin; contradiction).
      specialize (I Hne). rewrite Ht.
      assert (Hlt : (last <= t)%Z) by (destruct ok; exact Hle).
      assert (Hmax : (t - start d <= Z.max (Result.time (result d))
                                           (t - start d))%Z) by lia.
      rewrite Zle_Qle in Hlt, Hmax.
      unfold Z.sub in Hmax at 1. rewrite inject_Z_plus, inject_Z_opp in Hmax.
      lra.
Qed.

Lemma nonneg_exec (tr : list Event)
      (d d' : Detection (list ImageFormatResult)) :
  0 <= Result.time (result d) ->
  Forall (fun r => 0 <= Result.time r) (user d) ->
  run d tr = Some d' ->
  Forall (fun r => 0 <= Result.time r) (user d').
Proof.
  unfold run. revert d. induction tr as [|e tr IH]; intros d T F; simpl.
  - now intros [= <-].
  - destruct (step record_call d e) as [d1|] eqn:E; [|discriminate].
    pose proof (time_step_le record_call _ _ _ E) as Hle.
    apply IH; [lia|].
    destruct (log_step _ _ _ E) as [->|(-> & _)]; [exact F|].
    apply Forall_app. split; [exact F|]. constructor; [lia|constructor].
Qed.

Lemma detect_fullConfig (config : option ImageFormatConfig)
      (clk : DispatchClock) :
  fullConfig (detect config clk) = fullConfigOf config /\
  start (detect config clk) = at_start clk.
Proof.
  destruct (detectImageFormats_initial record_call config clk [])
    as (Hc & Hs & _). auto.
Qed.

Lemma no_format_enabled_dec (c : ImageFormatFullConfig) :
  (exists f, enabled f c = true) \/ (forall f, enabled f c = false).
Proof.
  destruct c as [a w j ms]. destruct a; [left; now exists Avif|].
  destruct w; [left; now exists Webp|].
  destruct j; [left; now exists Jxl|].
  right. intros f. destruct f; reflexivity.
Qed.

(** ** The claims *)

(** C1 (the code departs from the claim).  With avif, webp and jxl all
    disabled, each of the three [else] branches finds nothing left to wait
    for, so the synchronous call runs the callback three times, and nothing
    is left for the event loop to run. *)
Theorem all_disabled_fires_three_times :
  forall (ms : option Q) (clk : DispatchClock),
    let d := detect (Some (Config.mk (Some false) (Some false) (Some false)
                                     ms)) clk in
    List.length (user d) = 3%nat /\
    (forall r, In r (user d) -> forall f, verdict f r = None) /\
    quiescent d = true.
Proof.
  intros ms clk d. split; [|split].
  - subst d. unfold detect. rewrite detectImageFormats_unfold.
    unfold dispatch. cbn -[Z.sub Z.max Z.gtb callbackIfEnd].
    rewrite ?callbackIfEnd_eq; cbn -[Z.sub Z.max Z.gtb callbackIfEnd].
    rewrite ?callbackIfEnd_eq; cbn -[Z.sub Z.max Z.gtb callbackIfEnd].
    rewrite ?callbackIfEnd_eq; cbn -[Z.sub Z.max Z.gtb callbackIfEnd].
    reflexivity.
  - intros r Hr. subst d. now apply detect_log in Hr.
  - subst d.
    destruct (detectImageFormats_initial record_call
                (Some (Config.mk (Some false) (Some false) (Some false) ms))
                clk []) as (_ & _ & _ & Ht & Hi).
    unfold detect, quiescent. now rewrite Ht, Hi.
Qed.

(** C2.  With at least one format enabled, the synchronous call does not
    run the callback, and at every point of the run the callback has run
    once if no probe is pending any more (which is when every enabled
    format has its verdict) and not at all otherwise; every run can be
    continued to such a point, where it has run exactly once, on the final
    result. *)
Theorem callback_fires_exactly_once :
  forall (config : option ImageFormatConfig) (clk : DispatchClock),
    (exists f, enabled f (fullConfigOf config) = true) ->
    user (detect config clk) = [] /\
    forall (tr : list Event) (d : Detection (list ImageFormatResult)),
      run (detect config clk) tr = Some d ->
      quiescent d = all_settled (fullConfig d) (result d) /\
      user d = (if quiescent d then [result d] else []) /\
      exists (tr' : list Event) (d' : Detection (list ImageFormatResult)),
        run d tr' = Some d' /\ quiescent d' = true /\
        user d' = [result d'].
Proof.
  intros config clk [f He]. split.
  - apply (detectImageFormats_silent record_call config clk [] f He).
  - intros tr d H.
    pose proof (Wf_exec record_call tr _ _
                  (Wf_detectImageFormats record_call config clk []) H) as W.
    pose proof (Once_exec record_call [] tr _ _
                  (Wf_detectImageFormats record_call config clk [])
                  (Once_detectImageFormats record_call config clk [] f He) H)
      as O.
    split; [symmetry; now apply settled_quiescent|]. split; [exact O|].
    destruct (finish_quiescent record_call d 0) as (d' & E & Q).
    exists (finish d 0), d'. split; [exact E|]. split; [exact Q|].
    pose proof (Once_exec record_call [] _ _ _ W O E) as O'.
    unfold Once in O'. now rewrite Q in O'.
Qed.

(** A run with avif and jxl enabled, webp disabled and a delay of 5 ms:
    jxl fails to decode, then avif loads, and the callback runs once. *)
Lemma callback_fires_exactly_once_witness :
  let config := Some (Config.mk (Some true) (Some false) None (Some 5%Q)) in
  let clk := mkClock 100 101 102 103 in
  let tr := [TimerFires Jxl 105; TimerFires Avif 105; ImageFails Jxl 106;
             ImageLoads Avif 108] in
  user (detect config clk) = [] /\
  exists d, run (detect config clk) tr = Some d /\
            user d = (if quiescent d then [result d] else []) /\
            user d = [Result.mk (Some true) None (Some false) 8].
Proof.
  cbv zeta.
  destruct (callback_fires_exactly_once
              (Some (Config.mk (Some true) (Some false) None (Some 5%Q)))
              (mkClock 100 101 102 103) (ex_intro _ Avif eq_refl))
    as [Hsilent Hrun].
  split; [exact Hsilent|].
  eexists. split; [reflexivity|]. split; [|reflexivity].
  apply (Hrun [TimerFires Jxl 105; TimerFires Avif 105; ImageFails Jxl 106;
               ImageLoads Avif 108]).
  reflexivity.
Defined.

(** C3 as stated fails for the config with all three formats disabled: the
    first skip check already finds every requirement met and runs the
    callback inside the call. *)
Lemma all_disabled_called_during_dispatch :
  called_during_dispatch
    (Some (Config.mk (Some false) (Some false) (Some false) (Some 0%Q)))
    (mkClock 0 0 0 0).
Proof. unfold called_during_dispatch. vm_compute. discriminate. Qed.

(** C3, as amended.  The callback runs inside the synchronous call exactly
    for the configs with no format enabled; with at least one format
    enabled the call returns without having run it, and it has run only
    after the event loop has run at least one task, the last of them a
    decode outcome. *)
Theorem called_during_dispatch_iff_none_enabled :
  forall (config : option ImageFormatConfig) (clk : DispatchClock),
    (called_during_dispatch config clk <->
     forall f, enabled f (fullConfigOf config) = false) /\
    (user (detect config clk) = [] <->
     exists f, enabled f (fullConfigOf config) = true) /\
    ((exists f, enabled f (fullConfigOf config) = true) ->
     forall (tr : list Event) (d : Detection (list ImageFormatResult)),
       run (detect config clk) tr = Some d ->
       user d <> [] ->
       exists (tr' : list Event) (h : Format) (ok : bool) (t : Z),
         tr = tr' ++ [if ok then ImageLoads h t else ImageFails h t]).
Proof.
  intros config clk.
  cut ((called_during_dispatch config clk <->
        forall f, enabled f (fullConfigOf config) = false) /\
       (user (detect config clk) = [] <->
        exists f, enabled f (fullConfigOf config) = true)).
  { intros [H1 H2]. split; [exact H1|]. split; [exact H2|].
    intros [f He] tr d H Hne.
    pose proof (Wf_exec record_call tr _ _
                  (Wf_detectImageFormats record_call config clk []) H) as W.
    pose proof (Once_exec record_call [] tr _ _
                  (Wf_detectImageFormats record_call config clk [])
                  (Once_detectImageFormats record_call config clk [] f He) H)
      as O.
    unfold Once in O. destruct (quiescent d) eqn:Q; [|congruence].
    destruct (exists_last (l := tr)) as (tr' & e & ->).
    { intros ->. unfold run in H. cbn [exec] in H. injection H as <-.
      unfold detect in Q.
      rewrite (detectImageFormats_busy record_call config clk [] f He) in Q.
      discriminate. }
    exists tr'. unfold run in H. rewrite exec_app in H.
    destruct (exec record_call (detect config clk) tr') as [d1|] eqn:E1;
      [|discriminate].
    cbn [exec] in H. destruct (step record_call d1 e) as [d2|] eqn:E2;
      [|discriminate].
    injection H as ->.
    apply step_cases in E2
      as [(g & t & tm & rest & _ & _ & ->)|(g & ok & t & rest & -> & _)].
    - exfalso. unfold quiescent in Q. cbn in Q.
      destruct rest; destruct (images d1); discriminate.
    - now exists g, ok, t. }
  assert (Hsome : (exists f, enabled f (fullConfigOf config) = true) ->
                  user (detect config clk) = []).
  { intros [f He].
    apply (detectImageFormats_silent record_call config clk [] f He). }
  assert (Hnone : (forall f, enabled f (fullConfigOf config) = false) ->
                  user (detect config clk) <> []).
  { intros Hn. unfold detect. rewrite detectImageFormats_unfold.
    pose proof (Hn Avif) as Ha. pose proof (Hn Webp) as Hw.
    pose proof (Hn Jxl) as Hj.
    destruct (fullConfigOf config) as [a w j ms]. cbn in Ha, Hw, Hj.
    subst a w j. unfold dispatch.
    cbn -[Z.sub Z.max Z.gtb callbackIfEnd].
    rewrite ?callbackIfEnd_eq; cbn -[Z.sub Z.max Z.gtb callbackIfEnd].
    rewrite ?callbackIfEnd_eq; cbn -[Z.sub Z.max Z.gtb callbackIfEnd].
    rewrite ?callbackIfEnd_eq; cbn -[Z.sub Z.max Z.gtb callbackIfEnd].
    discriminate. }
  unfold called_during_dispatch.
  destruct (no_format_enabled_dec (fullConfigOf config)) as [Hs|Hn].
  - pose proof (Hsome Hs) as E. destruct Hs as [f He]. split; split.
    + intros H. contradiction.
    + intros Hn. rewrite Hn in He. discriminate.
    + intros _. now exists f.
    + intros _. exact E.
  - pose proof (Hnone Hn) as E. split; split.
    + intros _. exact Hn.
    + intros _. exact E.
    + intros H. contradiction.
    + intros [f He]. rewrite Hn in He. discriminate.
Qed.

(** On that run the callback has run, and the last task is the [onload]
    of avif. *)
Lemma called_during_dispatch_iff_none_enabled_witness :
  exists (tr' : list Event) (h : Format) (ok : bool) (t : Z),
    [TimerFires Jxl 105; TimerFires Avif 105; ImageFails Jxl 106;
     ImageLoads Avif 108]
    = tr' ++ [if ok then ImageLoads h t else ImageFails h t].
Proof.
  apply (proj2 (proj2 (called_during_dispatch_iff_none_enabled
                         (Some (Config.mk (Some true) (Some false) None
                                          (Some 5%Q)))
                         (mkClock 100 101 102 103)))
               (ex_intro _ Avif eq_refl)
               [TimerFires Jxl 105; TimerFires Avif 105; ImageFails Jxl 106;
                ImageLoads Avif 108]
               (mkDetection (FullConfig.mk true false true 5) 100
                            (Result.mk (Some true) None (Some false) 8)
                            [] [] [2; 6; 8]
                            [Result.mk (Some true) None (Some false) 8])).
  - reflexivity.
  - discriminate.
Defined.

(** C4.  Whenever the callback is called, every format that the config
    enables has a definite boolean in the result it is called with. *)
Theorem enabled_formats_have_verdict :
  forall (config : option ImageFormatConfig) (clk : DispatchClock)
         (tr : list Event) (d : Detection (list ImageFormatResult))
         (r : ImageFormatResult) (f : Format),
    run (detect config clk) tr = Some d ->
    In r (user d) ->
    enabled f (fullConfigOf config) = true ->
    exists b : bool, verdict f r = Some b.
Proof.
  intros config clk tr d r f H Hr He.
  destruct (detect_fullConfig config clk) as [Hc _].
  assert (F : Forall (fun r => all_settled (fullConfigOf config) r = true)
                     (user d)).
  { apply (logged_exec _ tr (detect config clk) d).
    - apply Wf_detectImageFormats.
    - intros d1 _ Hc1 A. congruence.
    - apply Forall_forall. intros r0 Hr0.
      apply detect_log in Hr0 as (Hn & _).
      now apply all_settled_none_enabled.
    - exact H. }
  rewrite Forall_forall in F. specialize (F r Hr).
  rewrite all_settled_spec in F. specialize (F f He).
  destruct (verdict f r) as [b|]; [now exists b|congruence].
Qed.

(** On that run the callback gets a definite verdict for jxl. *)
Lemma enabled_formats_have_verdict_witness :
  exists b : bool,
    verdict Jxl (Result.mk (Some true) None (Some false) 8) = Some b.
Proof.
  apply (enabled_formats_have_verdict
           (Some (Config.mk (Some true) (Some false) None (Some 5%Q)))
           (mkClock 100 101 102 103)
           [TimerFires Jxl 105; TimerFires Avif 105; ImageFails Jxl 106;
            ImageLoads Avif 108]
           (mkDetection (FullConfig.mk true false true 5) 100
                        (Result.mk (Some true) None (Some false) 8)
                        [] [] [2; 6; 8]
                        [Result.mk (Some true) None (Some false) 8])
           (Result.mk (Some true) None (Some false) 8) Jxl).
  - reflexivity.
  - simpl. left. reflexivity.
  - reflexivity.
Defined.

(** C5.  The field of a format that the config disables is null in the
    result object at every point of the run, so no step ever writes it, no
    probe for it is ever pending, and it is null in every result the
    callback is called with. *)
Theorem disabled_formats_stay_null :
  forall (config : option ImageFormatConfig) (clk : DispatchClock)
         (tr : list Event) (d : Detection (list ImageFormatResult))
         (f : Format),
    run (detect config clk) tr = Some d ->
    enabled f (fullConfigOf config) = false ->
    verdict f (result d) = None /\
    ~ In f (pending d) /\
    (forall r, In r (user d) -> verdict f r = None).
Proof.
  intros config clk tr d f H He.
  destruct (detect_fullConfig config clk) as [Hc _].
  pose proof (Wf_detectImageFormats record_call config clk []) as W0.
  pose proof (Wf_exec record_call tr _ _ W0 H) as W.
  destruct (exec_closure record_call tr _ _ H) as [Hcd _].
  fold (detect config clk) in Hcd. rewrite Hc in Hcd.
  split; [|split].
  - apply (wf_disabled d W). congruence.
  - intros Hin. apply (wf_pending d W) in Hin as [Hin _]. congruence.
  - assert (F : Forall (fun r => verdict f r = None) (user d)).
    { apply (logged_exec _ tr (detect config clk) d).
      - exact W0.
      - intros d1 W1 Hc1 _. apply (wf_disabled d1 W1). congruence.
      - apply Forall_forall. intros r0 Hr0.
        apply detect_log in Hr0 as (_ & Hv & _). apply Hv.
      - exact H. }
    now rewrite Forall_forall in F.
Qed.

(** On that run the webp field stays null. *)
Lemma disabled_formats_stay_null_witness :
  let d := mkDetection (FullConfig.mk true false true 5) 100
                       (Result.mk (Some true) None (Some false) 8)
                       [] [] [2; 6; 8]
                       [Result.mk (Some true) None (Some false) 8] in
  verdict Webp (result d) = None /\
  ~ In Webp (pending d) /\
  (forall r, In r (user d) -> verdict Webp r = None).
Proof.
  apply (disabled_formats_stay_null
           (Some (Config.mk (Some true) (Some false) None (Some 5%Q)))
           (mkClock 100 101 102 103)
           [TimerFires Jxl 105; TimerFires Avif 105; ImageFails Jxl 106;
            ImageLoads Avif 108]).
  - reflexivity.
  - reflexivity.
Defined.

(** C9, as amended.  Every result the callback is called with has a
    non-negative [time]; and when at least one format is enabled, the event
    loop runs its tasks in chronological order from [start] on and every
    timer fires no earlier than the timeout it was registered with, that
    [time] is more than the configured delay less one millisecond: it is
    at least the delay rounded down to a whole millisecond, and at least
    the delay itself when the delay is a whole number of milliseconds. *)
Theorem final_time_bounds :
  forall (config : option ImageFormatConfig) (clk : DispatchClock)
         (tr : list Event) (d : Detection (list ImageFormatResult))
         (r : ImageFormatResult),
    run (detect config clk) tr = Some d ->
    In r (user d) ->
    0 <= Result.time r /\
    ((exists f, enabled f (fullConfigOf config) = true) ->
     chronological (at_start clk) tr ->
     punctual (at_start clk) (timers (detect config clk)) tr ->
     (FullConfig.delay (fullConfigOf config)
      < inject_Z (Result.time r) + 1)%Q /\
     Qfloor (FullConfig.delay (fullConfigOf config)) <= Result.time r /\
     (forall n : Z,
         (FullConfig.delay (fullConfigOf config) == inject_Z n)%Q ->
         time_reaches_delay (fullConfigOf config) r)).
Proof.
  intros config clk tr d r H Hr.
  destruct (detect_fullConfig config clk) as [Hc Hs]. split.
  - assert (F : Forall (fun r => 0 <= Result.time r) (user d)).
    { apply (nonneg_exec tr (detect config clk) d).
      - rewrite (TimeInv_detectImageFormats record_call config clk []).
        apply fold_left_max_le.
      - apply Forall_forall. intros r0 Hr0.
        now apply detect_log in Hr0 as (_ & _ & Ht).
      - exact H. }
    rewrite Forall_forall in F. now apply F.
  - intros [f He] C Pu.
    assert (F : Forall (fun r => (FullConfig.delay
                                    (fullConfig (detect config clk))
                                  < inject_Z (Result.time r) + 1)%Q)
                       (user d)).
    { apply (timed_exec tr (at_start clk) (detect config clk) d).
      - apply Wf_detectImageFormats.
      - exact C.
      - now rewrite Hs.
      - intros Hi. exfalso. apply Hi.
        now destruct (detectImageFormats_initial record_call config clk [])
          as (_ & _ & _ & _ & Hi0).
      - unfold detect.
        rewrite (detectImageFormats_silent record_call config clk [] f He).
        constructor.
      - exact H. }
    rewrite Forall_forall, Hc in F. specialize (F r Hr).
    split; [exact F|]. split.
    + pose proof (Qfloor_le (FullConfig.delay (fullConfigOf config))) as Hfl.
      assert (Hlt : (inject_Z (Qfloor (FullConfig.delay (fullConfigOf config)))
                     < inject_Z (Result.time r + 1))%Q).
      { rewrite inject_Z_plus. change (inject_Z 1) with 1%Q. lra. }
      rewrite <- Zlt_Qlt in Hlt. lia.
    + intros n Hn. unfold time_reaches_delay.
      assert (Hlt : (inject_Z n < inject_Z (Result.time r + 1))%Q).
      { rewrite inject_Z_plus. change (inject_Z 1) with 1%Q. lra. }
      rewrite <- Zlt_Qlt in Hlt.
      assert (Hle : (n <= Result.time r)%Z) by lia.
      rewrite Zle_Qle in Hle. lra.
Qed.

(** On that run, chronological and with punctual timers, the callback gets
    a time of 8 ms, above the delay of 5 ms. *)
Lemma final_time_bounds_witness :
  let config := Some (Config.mk (Some true) (Some false) None (Some 5%Q)) in
  let r := Result.mk (Some true) None (Some false) 8 in
  0 <= Result.time r /\
  Qfloor (FullConfig.delay (fullConfigOf config)) <= Result.time r /\
  time_reaches_delay (fullConfigOf config) r.
Proof.
  intros config r.
  pose (clk := mkClock 100 101 102 103).
  pose (tr := [TimerFires Jxl 105; TimerFires Avif 105; ImageFails Jxl 106;
               ImageLoads Avif 108]).
  pose (d := mkDetection (FullConfig.mk true false true 5) 100 r
                         [] [] [2; 6; 8] [r]).
  destruct (final_time_bounds config clk tr d r) as [H0 H1].
  - reflexivity.
  - simpl. left. reflexivity.
  - split; [exact H0|]. destruct H1 as (_ & Hfloor & Hwhole).
    + exists Avif. reflexivity.
    + simpl. lia.
    + cbn. split; [|split; [|exact I]].
      * exists (inject_Z 105). split; [reflexivity|]. cbv. discriminate.
      * exists (inject_Z 105). split; [reflexivity|]. cbv. discriminate.
    + split; [exact Hfloor|]. apply (Hwhole 5). reflexivity.
Defined.

(** C9 as stated fails for a delay that is not a whole number of
    milliseconds.  With avif alone enabled and a delay of half a
    millisecond: the call is made at 100.0 ms, the timer fires at 100.5 ms
    and the image loads within the same millisecond, so every reading of
    the clock is 100 and the callback gets [time = 0], below the delay. *)
Lemma time_below_fractional_delay :
  let config := Some (Config.mk (Some true) (Some false) (Some false)
                                (Some (1 # 2))) in
  let clk := mkClock 100 100 100 100 in
  let tr := [TimerFires Avif 100; ImageLoads Avif 100] in
  let r := Result.mk (Some true) None None 0 in
  chronological (at_start clk) tr /\
  punctual (at_start clk) (timers (detect config clk)) tr /\
  (exists d, run (detect config clk) tr = Some d /\ user d = [r]) /\
  ~ time_reaches_delay (fullConfigOf config) r.
Proof.
  cbv zeta. split; [|split; [|split]].
  - cbn. lia.
  - cbn. split; [|exact I].
    exists (201 # 2). split; [reflexivity|]. cbv. discriminate.
  - eexists. split; reflexivity.
  - unfold time_reaches_delay. cbv. intros H. now apply H.
Qed.

(** C10.  With at least one format enabled: a check that runs while an
    enabled format has no verdict returns [false] and does not run the
    callback; during the synchronous call that is the case at every skip
    check, since the call writes no verdict and only registers the timers
    of the enabled formats; so the call returns with the callback not run,
    and afterwards only a decode outcome ([onload] or [onerror]) runs it. *)
Theorem skip_checks_never_fire :
  forall (config : option ImageFormatConfig) (clk : DispatchClock)
         (f : Format),
    enabled f (fullConfigOf config) = true ->
    (forall (g : Format) (now : Z) (d : Detection (list ImageFormatResult)),
        fullConfig d = fullConfigOf config ->
        verdict f (result d) = None ->
        fst (callbackIfEnd record_call now d) = false /\
        user (snd (callbackIfEnd record_call now d)) = user d /\
        user (dispatch record_call g now d) = user d /\
        verdict f (result (dispatch record_call g now d)) = None) /\
    (let d := detect config clk in
     user d = [] /\
     (forall h, verdict h (result d) = None) /\
     images d = [] /\
     In (mkTimer f (FullConfig.delay (fullConfigOf config))) (timers d)) /\
    (forall (tr : list Event) (d d' : Detection (list ImageFormatResult))
            (e : Event),
        run (detect config clk) tr = Some d ->
        step record_call d e = Some d' ->
        user d' <> user d ->
        exists (h : Format) (ok : bool) (t : Z),
          e = (if ok then ImageLoads h t else ImageFails h t) /\
          user d' = user d ++ [result d']).
Proof.
  intros config clk f He. split; [|split].
  - intros g now d Hc Hn. rewrite <- Hc in He.
    destruct (dispatch_silent record_call g f now d He Hn)
      as (Hu & _ & Hv & _).
    pose proof (all_settled_false _ _ _ He Hn) as A.
    rewrite callbackIfEnd_fired, callbackIfEnd_user, A, Hu, Hv.
    auto.
  - cbv zeta.
    destruct (detectImageFormats_initial record_call config clk [])
      as (_ & _ & Hv & Ht & Hi).
    split; [apply (detectImageFormats_silent record_call config clk [] f He)|].
    split; [exact Hv|]. split; [exact Hi|].
    unfold detect. rewrite Ht.
    apply (in_map (fun g => mkTimer g (FullConfig.delay (fullConfigOf config)))
                  _ f).
    apply filter_In.
    split; [destruct f; simpl; auto|exact He].
  - intros tr d d' e _ Hstep Hneq.
    destruct (log_step _ _ _ Hstep) as [E|(E & _ & h & ok & t & -> & _)].
    + congruence.
    + now exists h, ok, t.
Qed.

(** With the same config, the skip check of webp does not fire and the
    timer of jxl is registered. *)
Lemma skip_checks_never_fire_witness :
  let d := detect (Some (Config.mk (Some true) (Some false) None (Some 5%Q)))
                  (mkClock 100 101 102 103) in
  user d = [] /\
  (forall h, verdict h (result d) = None) /\
  images d = [] /\
  In (mkTimer Jxl 5) (timers d).
Proof.
  apply (skip_checks_never_fire
           (Some (Config.mk (Some true) (Some false) None (Some 5%Q)))
           (mkClock 100 101 102 103) Jxl).
  reflexivity.
Defined.

Lemma marker_inj (f g : Format) (b c : bool) :
  marker f b = marker g c -> f = g /\ b = c.
Proof.
  destruct f, g, b, c; cbv; intros H; try discriminate H; auto.
Qed.

Lemma classList_add_In (token c : string) (classList : list string) :
  In c (classList_add token classList) <-> In c classList \/ c = token.
Proof.
  unfold classList_add.
  destruct (existsb (String.eqb token) classList) eqn:E.
  - split; [auto|]. intros [H| ->]; [exact H|].
    apply existsb_exists in E as (x & Hx & Ex).
    apply String.eqb_eq in Ex. now subst.
  - rewrite in_app_iff. simpl. intuition congruence.
Qed.

Lemma classList_add_extends (token : string) (classList : list string) :
  exists added, classList_add token classList = classList ++ added.
Proof.
  unfold classList_add.
  destruct (existsb (String.eqb token) classList).
  - exists []. now rewrite app_nil_r.
  - now exists [token].
Qed.

Lemma onDetected_mark (r : ImageFormatResult) (body : list string) :
  onDetected r body =
  mark Jxl (Result.jxl r) (mark Webp (Result.webp r)
                             (mark Avif (Result.avif r) body)).
Proof.
  unfold onDetected, mark.
  destruct (Result.avif r) as [[|]|], (Result.webp r) as [[|]|],
    (Result.jxl r) as [[|]|]; reflexivity.
Qed.

Lemma mark_In (f : Format) (v : option bool) (c : string)
      (body : list string) :
  In c (mark f v body) <->
  In c body \/ exists b, v = Some b /\ c = marker f b.
Proof.
  unfold mark. destruct v as [b|].
  - rewrite classList_add_In. split.
    + intros [H| ->]; [now left|right; now exists b].
    + intros [H|(b' & [= <-] & ->)]; auto.
  - split; [auto|]. intros [H|(b' & Hb & _)]; [exact H|discriminate].
Qed.

Lemma mark_extends (f : Format) (v : option bool) (body : list string) :
  exists added, mark f v body = body ++ added.
Proof.
  unfold mark. destruct v as [b|].
  - apply classList_add_extends.
  - exists []. now rewrite app_nil_r.
Qed.

Lemma onDetected_In (r : ImageFormatResult) (body : list string)
      (c : string) :
  In c (onDetected r body) <->
  In c body \/ exists f b, verdict f r = Some b /\ c = marker f b.
Proof.
  rewrite onDetected_mark, !mark_In. split.
  - intros [[[H|(b & Hb & ->)]|(b & Hb & ->)]|(b & Hb & ->)].
    + now left.
    + right. now exists Avif, b.
    + right. now exists Webp, b.
    + right. now exists Jxl, b.
  - intros [H|(f & b & Hb & ->)].
    + auto.
    + destruct f; cbn in Hb.
      * left. left. right. now exists b.
      * left. right. now exists b.
      * right. now exists b.
Qed.

(** C8.  The handler of [detectImageFormatsDefault] only adds classes, and
    a class is in the body's list afterwards iff it was there before or is
    the marker of a format with a definite verdict: [has-<format>] for
    [true], [no-<format>] for [false].  So for a definite verdict the
    matching marker is present and the opposite one is not added; for a null
    verdict neither marker of that format is added; and a result that is
    all null leaves the class list as it was.  In a run of
    [detectImageFormatsDefault] the class list is untouched until every
    probe has settled, and is then the handler's result on the final
    verdicts. *)
Theorem body_marker_classes :
  (forall (r : ImageFormatResult) (body : list string),
      (forall c, In c (onDetected r body) <->
                 In c body \/
                 exists f b, verdict f r = Some b /\ c = marker f b) /\
      (exists added, onDetected r body = body ++ added) /\
      (forall f b, verdict f r = Some b ->
                   In (marker f b) (onDetected r body) /\
                   (In (marker f (negb b)) (onDetected r body) ->
                    In (marker f (negb b)) body)) /\
      (forall f b, verdict f r = None ->
                   In (marker f b) (onDetected r body) ->
                   In (marker f b) body) /\
      ((forall f, verdict f r = None) -> onDetected r body = body)) /\
  (forall (clk : DispatchClock) (body : list string) (tr : list Event)
          (d : Detection (list string)),
      exec onDetected (detectImageFormatsDefault clk body) tr = Some d ->
      user d = (if quiescent d then onDetected (result d) body else body) /\
      (quiescent d = true -> forall f, verdict f (result d) <> None)).
Proof.
  split.
  - intros r body. split; [apply onDetected_In|]. split; [|split; [|split]].
    + rewrite onDetected_mark.
      destruct (mark_extends Avif (Result.avif r) body) as [a1 ->].
      destruct (mark_extends Webp (Result.webp r) (body ++ a1)) as [a2 ->].
      destruct (mark_extends Jxl (Result.jxl r) ((body ++ a1) ++ a2))
        as [a3 ->].
      exists (a1 ++ a2 ++ a3). now rewrite <- !app_assoc.
    + intros f b Hb. split.
      * apply onDetected_In. right. now exists f, b.
      * intros H. apply onDetected_In in H as [H|(g & c & Hc & E)];
          [exact H|].
        apply marker_inj in E as [<- <-]. rewrite Hb in Hc.
        destruct b; discriminate.
    + intros f b Hn H. apply onDetected_In in H as [H|(g & c & Hc & E)];
        [exact H|].
      apply marker_inj in E as [<- <-]. congruence.
    + intros Hn. rewrite onDetected_mark.
      pose proof (Hn Avif) as Ha. pose proof (Hn Webp) as Hw.
      pose proof (Hn Jxl) as Hj. cbn in Ha, Hw, Hj.
      now rewrite Ha, Hw, Hj.
  - intros clk body tr d H. unfold detectImageFormatsDefault in H.
    set (config := Some (Config.mk (Some true) (Some true) (Some true)
                                   (Some 0%Q))) in *.
    pose proof (Wf_detectImageFormats onDetected config clk body) as W0.
    pose proof (Wf_exec onDetected tr _ _ W0 H) as W.
    split.
    + apply (Once_exec onDetected body tr _ _ W0
               (Once_detectImageFormats onDetected config clk body Avif
                                        eq_refl) H).
    + intros Q f.
      rewrite <- (settled_quiescent d W), all_settled_spec in Q.
      apply Q.
      destruct (exec_closure onDetected tr _ _ H) as [Hc _].
      destruct (detectImageFormats_initial onDetected config clk body)
        as (Hc0 & _).
      rewrite Hc, Hc0. destruct f; reflexivity.
Qed.

(** A run of the default helper on a body of class [page]: avif and webp
    load, jxl fails. *)
Lemma body_marker_classes_witness :
  exists d,
    exec onDetected (detectImageFormatsDefault (mkClock 0 0 0 0) ["page"%string])
         [TimerFires Avif 0; TimerFires Webp 1; TimerFires Jxl 1;
          ImageLoads Webp 2; ImageFails Jxl 3; ImageLoads Avif 3] = Some d /\
    user d = (if quiescent d then onDetected (result d) ["page"%string]
              else ["page"%string]) /\
    user d = ["page"%string; "has-avif"%string; "has-webp"%string; "no-jxl"%string].
Proof.
  eexists. split; [reflexivity|]. split; [|reflexivity].
  apply (proj2 body_marker_classes (mkClock 0 0 0 0) ["page"%string]
           [TimerFires Avif 0; TimerFires Webp 1; TimerFires Jxl 1;
            ImageLoads Webp 2; ImageFails Jxl 3; ImageLoads Avif 3]).
  reflexivity.
Defined.


(** ** Further properties of the detector *)

Lemma NoDup_app_excl {A : Type} (l1 l2 : list A) (x : A) :
  NoDup (l1 ++ l2) -> In x l1 -> In x l2 -> False.
Proof.
  induction l1 as [|a l1 IH]; simpl; intros ND H1 H2; [contradiction|].
  inversion ND as [|? ? Hn ND']; subst. destruct H1 as [->|H1].
  - apply Hn. apply in_or_app. now right.
  - now apply IH.
Qed.

Lemma events_of_snoc (f : Format) (tr : list Event) (e : Event) :
  events_of f (tr ++ [e]) =
  events_of f tr ++ (if Format_eqb (event_format e) f then [e] else []).
Proof. unfold events_of. rewrite filter_app. reflexivity. Qed.

Lemma reported_events_of (f : Format) (tr : list Event) :
  reported f tr = reported f (events_of f tr).
Proof.
  induction tr as [|e tr IH]; [reflexivity|].
  destruct e as [g t|g t|g t]; cbn [reported events_of filter event_format];
    fold (events_of f tr); destruct (Format_eqb g f) eqn:E;
    cbn [reported]; rewrite ?E; auto.
Qed.

Lemma reported_app (f : Format) (tr1 tr2 : list Event) :
  reported f (tr1 ++ tr2) =
  match reported f tr1 with
  | Some b => Some b
  | None => reported f tr2
  end.
Proof.
  induction tr1 as [|e tr1 IH]; [reflexivity|].
  destruct e as [g t|g t|g t]; cbn [reported app];
    try destruct (Format_eqb g f); auto.
Qed.

Section Protocol.

Context {S : Type}.
Variable callback : ImageFormatResult -> S -> S.

Lemma exec_snoc (d0 d' : Detection S) (tr : list Event) (e : Event) :
  exec callback d0 (tr ++ [e]) = Some d' ->
  exists d, exec callback d0 tr = Some d /\ step callback d e = Some d'.
Proof.
  rewrite exec_app. destruct (exec callback d0 tr) as [d|]; [|discriminate].
  cbn [exec]. destruct (step callback d e) as [d1|] eqn:E; [|discriminate].
  intros [= <-]. now exists d.
Qed.

(** A probe that is waiting or decoding is enabled, has no verdict, and is
    in one of the two phases only. *)
Lemma Wf_timer_phase (d : Detection S) (f : Format) :
  Wf d -> In f (map probe (timers d)) ->
  enabled f (fullConfig d) = true /\ verdict f (result d) = None /\
  ~ In f (images d).
Proof.
  intros W H.
  assert (Hp : In f (pending d)) by (apply in_or_app; now left).
  apply (wf_pending d W) in Hp as [He Hn]. repeat split; auto.
  intros Hi. apply (NoDup_app_excl _ _ f (wf_nodup d W) H Hi).
Qed.

Lemma Wf_image_phase (d : Detection S) (f : Format) :
  Wf d -> In f (images d) ->
  enabled f (fullConfig d) = true /\ verdict f (result d) = None /\
  ~ In f (map probe (timers d)).
Proof.
  intros W H.
  assert (Hp : In f (pending d)) by (apply in_or_app; now right).
  apply (wf_pending d W) in Hp as [He Hn]. repeat split; auto.
  intros Ht. apply (NoDup_app_excl _ _ f (wf_nodup d W) Ht H).
Qed.

(** A task of another format leaves the phase of [f] alone. *)
Lemma step_other (d d' : Detection S) (e : Event) (f : Format) :
  step callback d e = Some d' ->
  Format_eqb (event_format e) f = false ->
  (In f (map probe (timers d)) -> In f (map probe (timers d'))) /\
  (In f (images d) -> In f (images d')) /\
  verdict f (result d') = verdict f (result d).
Proof.
  intros H Hne. apply step_cases in H
    as [(g & t & tm & rest & -> & E & ->)|(g & ok & t & rest & -> & E & ->)].
  - cbn in Hne. cbn. split; [|split; [|reflexivity]].
    + intros Hin. destruct (take_timer_perm _ _ _ _ E) as [Hp HP].
      apply (Permutation_in _ (Permutation_map probe HP)) in Hin.
      cbn in Hin. destruct Hin as [Hin|Hin]; [|exact Hin].
      rewrite Hp in Hin. subst g. rewrite Format_eqb_refl in Hne.
      discriminate.
    + intros Hin. apply in_or_app. now left.
  - assert (Hg : Format_eqb g f = false) by (destruct ok; exact Hne).
    destruct (outcome_closure callback g ok t rest d) as (_ & _ & Ht & Hi).
    rewrite Ht, Hi, outcome_verdict, Hg. split; [auto|]. split; [|reflexivity].
    intros Hin. apply (Permutation_in _ (take_image_perm _ _ _ E)) in Hin.
    destruct Hin as [->|Hin]; [|exact Hin].
    rewrite Format_eqb_refl in Hg. discriminate.
Qed.

Lemma step_timer (d d' : Detection S) (f : Format) (t : Z) :
  step callback d (TimerFires f t) = Some d' ->
  In f (map probe (timers d)) /\ In f (images d').
Proof.
  cbn. destruct (take_timer f (timers d)) as [[tm rest]|] eqn:E;
    [|discriminate].
  intros [= <-]. destruct (take_timer_perm _ _ _ _ E) as [Hp HP]. split.
  - apply (Permutation_in _ (Permutation_sym (Permutation_map probe HP))).
    cbn. now left.
  - cbn. apply in_or_app. right. now left.
Qed.

Lemma step_outcome (d d' : Detection S) (f : Format) (ok : bool) (t : Z) :
  step callback d (outcome_event f ok t) = Some d' ->
  In f (images d) /\ verdict f (result d') = Some ok.
Proof.
  intros H.
  assert (E : exists rest, take_image f (images d) = Some rest /\
                           d' = outcome callback f ok t rest d).
  { destruct ok; cbn in H;
      destruct (take_image f (images d)) as [rest|]; try discriminate;
      injection H as <-; now exists rest. }
  destruct E as (rest & E & ->). split.
  - apply (Permutation_in _ (Permutation_sym (take_image_perm _ _ _ E))).
    now left.
  - now rewrite outcome_verdict, Format_eqb_refl.
Qed.

Lemma event_shape (e : Event) :
  (exists f t, e = TimerFires f t) \/
  (exists f ok t, e = outcome_event f ok t).
Proof.
  destruct e as [f t|f t|f t].
  - left. now exists f, t.
  - right. now exists f, true, t.
  - right. now exists f, false, t.
Qed.

(** The phase of every format after every trace. *)
Lemma protocol_exec (config : option ImageFormatConfig)
      (clk : DispatchClock) (s : S) (tr : list Event) (d : Detection S)
      (f : Format) :
  exec callback (detectImageFormats callback config clk s) tr = Some d ->
  Protocol f tr d.
Proof.
  revert d. induction tr as [|e tr IH] using rev_ind; intros d H.
  - cbn in H. injection H as <-.
    destruct (detectImageFormats_initial callback config clk s)
      as (Hc & _ & _ & Ht & _).
    destruct (enabled f (fullConfigOf config)) eqn:He.
    + unfold Protocol. right. left. split; [|reflexivity].
      rewrite Ht, map_map. cbn [probe].
      rewrite map_id. apply filter_In. split; [destruct f; cbn; auto|exact He].
    + unfold Protocol. left. split; [now rewrite Hc|reflexivity].
  - apply exec_snoc in H as (d0 & H0 & Hstep).
    specialize (IH d0 H0).
    pose proof (Wf_exec callback tr _ _
                  (Wf_detectImageFormats callback config clk s) H0) as W.
    destruct (step_closure callback _ _ _ Hstep) as [Hc _].
    unfold Protocol in *. rewrite events_of_snoc.
    destruct (Format_eqb (event_format e) f) eqn:Ef.
    + apply Format_eqb_eq in Ef.
      destruct (event_shape e) as [(g & t & ->)|(g & ok & t & ->)].
      * cbn in Ef. subst g.
        destruct (step_timer _ _ _ _ Hstep) as [Hin Hin'].
        destruct (Wf_timer_phase d0 f W Hin) as (He & Hn & Hni).
        destruct IH as [[Hd _]|[[_ Hev]|[(t0 & Hi & _)|(t0 & ok & t1 & Hv & _)]]].
        -- congruence.
        -- right. right. left. exists t. rewrite Hev. auto.
        -- contradiction.
        -- congruence.
      * assert (Eg : g = f) by (destruct ok; exact Ef). subst g.
        destruct (step_outcome _ _ _ _ _ Hstep) as [Hin Hv'].
        destruct (Wf_image_phase d0 f W Hin) as (He & Hn & Hnt).
        destruct IH as [[Hd _]|[[Ht _]|[(t0 & _ & Hev)|(t0 & ok0 & t1 & Hv & _)]]].
        -- congruence.
        -- contradiction.
        -- right. right. right. exists t0, ok, t. rewrite Hev. auto.
        -- congruence.
    + rewrite app_nil_r.
      destruct (step_other _ _ _ f Hstep Ef) as (Ht & Hi & Hv).
      destruct IH as [[Hd Hev]|[[Hin Hev]|[(t0 & Hin & Hev)|(t0 & ok & t1 & Hv0 & Hev)]]].
      * left. split; [congruence|exact Hev].
      * right. left. auto.
      * right. right. left. exists t0. auto.
      * right. right. right. exists t0, ok, t1. split; [congruence|exact Hev].
Qed.

(** The result holds what the platform reported, format by format. *)
Lemma verdict_reported (config : option ImageFormatConfig)
      (clk : DispatchClock) (s : S) (tr : list Event) (d : Detection S)
      (f : Format) :
  exec callback (detectImageFormats callback config clk s) tr = Some d ->
  verdict f (result d) = reported f tr.
Proof.
  intros H.
  pose proof (Wf_exec callback tr _ _
                (Wf_detectImageFormats callback config clk s) H) as W.
  rewrite reported_events_of.
  destruct (protocol_exec config clk s tr d f H)
    as [[Hd ->]|[[Hin ->]|[(t & Hin & ->)|(t & ok & t' & Hv & ->)]]].
  - cbn. now apply (wf_disabled d W).
  - cbn. now destruct (Wf_timer_phase d f W Hin) as (_ & Hn & _).
  - cbn. now destruct (Wf_image_phase d f W Hin) as (_ & Hn & _).
  - rewrite Hv. destruct ok; cbn; now rewrite Format_eqb_refl.
Qed.

End Protocol.

Section Progress.

Context {S : Type}.
Variable callback : ImageFormatResult -> S -> S.

(** Every task uses up one unit: a timer is worth two (it still has its
    decode ahead), an image in flight one. *)
Lemma budget_step (d d' : Detection S) (e : Event) :
  step callback d e = Some d' ->
  (1 + 2 * List.length (timers d') + List.length (images d') =
   2 * List.length (timers d) + List.length (images d))%nat.
Proof.
  intros H. apply step_cases in H
    as [(f & t & tm & rest & _ & E & ->)|(f & ok & t & rest & _ & E & ->)].
  - destruct (take_timer_perm _ _ _ _ E) as [_ HP].
    apply Permutation_length in HP. cbn in *. rewrite length_app. cbn. lia.
  - destruct (outcome_closure callback f ok t rest d) as (_ & _ & Ht & Hi).
    pose proof (Permutation_length (take_image_perm _ _ _ E)) as HP.
    rewrite Ht, Hi. cbn in HP. lia.
Qed.

Lemma budget_exec (tr : list Event) (d0 d : Detection S) :
  exec callback d0 tr = Some d ->
  (List.length tr + 2 * List.length (timers d) + List.length (images d) =
   2 * List.length (timers d0) + List.length (images d0))%nat.
Proof.
  revert d0. induction tr as [|e tr IH]; intros d0; cbn [exec].
  - intros [= <-]. reflexivity.
  - destruct (step callback d0 e) as [d1|] eqn:E; [|discriminate].
    intros H. apply IH in H. apply budget_step in E. cbn [List.length]. lia.
Qed.

Lemma quiescent_stuck (d : Detection S) (e : Event) :
  quiescent d = true -> step callback d e = None.
Proof.
  unfold quiescent. destruct (timers d) eqn:Ht; [|discriminate].
  destruct (images d) eqn:Hi; [|discriminate]. intros _.
  destruct e as [f t|f t|f t]; cbn; now rewrite ?Ht, ?Hi.
Qed.

(** One check per format: each check done plus each probe pending makes
    three. *)
Lemma checks_step (d d' : Detection S) (e : Event) :
  step callback d e = Some d' ->
  (List.length (checks d') + List.length (pending d') =
   List.length (checks d) + List.length (pending d))%nat.
Proof.
  intros H. apply step_cases in H
    as [(f & t & tm & rest & _ & E & ->)|(f & ok & t & rest & _ & E & ->)].
  - destruct (take_timer_perm _ _ _ _ E) as [_ HP].
    apply Permutation_length in HP. unfold pending. cbn in *.
    rewrite !length_app, !length_map. cbn. lia.
  - destruct (outcome_closure callback f ok t rest d) as (_ & _ & Ht & Hi).
    pose proof (Permutation_length (take_image_perm _ _ _ E)) as HP.
    unfold pending. rewrite outcome_checks, Ht, Hi, !length_app. cbn in *. lia.
Qed.

Lemma checks_exec (tr : list Event) (d0 d : Detection S) :
  exec callback d0 tr = Some d ->
  (List.length (checks d) + List.length (pending d) =
   List.length (checks d0) + List.length (pending d0))%nat.
Proof.
  revert d0. induction tr as [|e tr IH]; intros d0; cbn [exec].
  - intros [= <-]. reflexivity.
  - destruct (step callback d0 e) as [d1|] eqn:E; [|discriminate].
    intros H. apply IH in H. apply checks_step in E. lia.
Qed.

(** The measurements taken during the synchronous call: one per disabled
    format, in the order avif, webp, jxl. *)
Lemma detectImageFormats_checks (config : option ImageFormatConfig)
      (clk : DispatchClock) (s : S) :
  checks (detectImageFormats callback config clk s) =
  map (fun f => at_format f clk - at_start clk)
      (filter (fun f => negb (enabled f (fullConfigOf config))) all_formats).
Proof.
  rewrite detectImageFormats_unfold.
  destruct (fullConfigOf config) as [a w j ms].
  unfold dispatch.
  destruct a, w, j; cbn -[Z.sub Z.max Z.gtb callbackIfEnd];
    rewrite ?callbackIfEnd_eq; cbn -[Z.sub Z.max Z.gtb callbackIfEnd];
    rewrite ?callbackIfEnd_eq; cbn -[Z.sub Z.max Z.gtb callbackIfEnd];
    rewrite ?callbackIfEnd_eq; cbn -[Z.sub Z.max Z.gtb callbackIfEnd];
    reflexivity.
Qed.

Lemma filter_partition_length {A : Type} (p : A -> bool) (l : list A) :
  (List.length (filter p l) + List.length (filter (fun x => negb (p x)) l) =
   List.length l)%nat.
Proof.
  induction l as [|x l IH]; [reflexivity|].
  cbn. destruct (p x); cbn; lia.
Qed.

Lemma Latest_callbackIfEnd (last now : Z) (d : Detection S) :
  Latest last d -> last <= now ->
  Latest now (snd (callbackIfEnd callback now d)).
Proof.
  intros (Hs & Ht & Hl) Hle. unfold Latest.
  destruct (callbackIfEnd_closure callback now d) as (_ & Hst & _).
  rewrite Hst, callbackIfEnd_time, callbackIfEnd_checks, last_last.
  repeat split; lia.
Qed.

Lemma Latest_dispatch (last now : Z) (g : Format) (d : Detection S) :
  Latest last d -> last <= now -> Latest now (dispatch callback g now d).
Proof.
  intros L Hle. unfold dispatch. destruct (enabled g (fullConfig d)).
  - destruct L as (Hs & Ht & Hl). unfold Latest. cbn. repeat split; auto; lia.
  - now apply (Latest_callbackIfEnd last).
Qed.

Lemma Latest_detectImageFormats (config : option ImageFormatConfig)
      (clk : DispatchClock) (s : S) :
  dispatch_chronological clk ->
  Latest (at_jxl clk) (detectImageFormats callback config clk s).
Proof.
  intros (H1 & H2 & H3). rewrite detectImageFormats_unfold.
  apply (Latest_dispatch (at_webp clk)); [|exact H3].
  apply (Latest_dispatch (at_avif clk)); [|exact H2].
  apply (Latest_dispatch (at_start clk)); [|exact H1].
  unfold Latest. cbn. lia.
Qed.

Lemma Latest_step (last : Z) (d d' : Detection S) (e : Event) :
  Latest last d -> last <= event_time e ->
  step callback d e = Some d' -> Latest (event_time e) d'.
Proof.
  intros (Hs & Ht & Hl) Hle H. apply step_cases in H
    as [(f & t & tm & rest & -> & E & ->)|(f & ok & t & rest & -> & E & ->)].
  - unfold Latest. cbn in *. repeat split; auto; lia.
  - assert (Et : event_time (if ok then ImageLoads f t else ImageFails f t)
                 = t) by now destruct ok.
    rewrite Et in *. unfold Latest.
    destruct (outcome_closure callback f ok t rest d) as (_ & Hst & _).
    rewrite Hst, outcome_time, outcome_checks, last_last.
    repeat split; lia.
Qed.

Lemma Latest_exec (tr : list Event) (last : Z) (d d' : Detection S) :
  Latest last d -> chronological last tr ->
  exec callback d tr = Some d' ->
  exists last', Latest last' d'.
Proof.
  revert last d. induction tr as [|e tr IH]; intros last d L C; cbn [exec].
  - intros [= <-]. now exists last.
  - destruct (step callback d e) as [d1|] eqn:E; [|discriminate].
    destruct C as [Hle C]. apply (IH (event_time e)); [|exact C].
    now apply (Latest_step last d).
Qed.

End Progress.

(** X1.  At every point of a run each field of the result holds exactly
    what the platform has reported for that format: [true] if its image
    loaded, [false] if it failed to decode, null if neither happened yet.
    With a format enabled, the same holds of every result the callback is
    called with. *)
Theorem result_reports_decode_outcomes :
  forall (config : option ImageFormatConfig) (clk : DispatchClock)
         (tr : list Event) (d : Detection (list ImageFormatResult)),
    run (detect config clk) tr = Some d ->
    (forall f, verdict f (result d) = reported f tr) /\
    ((exists f, enabled f (fullConfigOf config) = true) ->
     forall r, In r (user d) -> forall f, verdict f r = reported f tr).
Proof.
  intros config clk tr d H. split.
  - intros f. apply (verdict_reported record_call config clk [] tr d f H).
  - intros [g He] r Hr f.
    pose proof (Once_exec record_call [] tr _ _
                  (Wf_detectImageFormats record_call config clk [])
                  (Once_detectImageFormats record_call config clk [] g He) H)
      as O.
    unfold Once in O. rewrite O in Hr.
    destruct (quiescent d); [|contradiction].
    destruct Hr as [<-|[]].
    apply (verdict_reported record_call config clk [] tr d f H).
Qed.

(** A run with avif and jxl enabled and webp disabled: jxl fails, avif
    loads, and the callback gets exactly that. *)
Lemma result_reports_decode_outcomes_witness :
  let tr := [TimerFires Jxl 105; TimerFires Avif 105; ImageFails Jxl 106;
             ImageLoads Avif 108] in
  let r := Result.mk (Some true) None (Some false) 8 in
  verdict Avif r = reported Avif tr /\
  verdict Webp r = reported Webp tr /\
  verdict Jxl r = reported Jxl tr.
Proof.
  cbv zeta.
  destruct (result_reports_decode_outcomes
              (Some (Config.mk (Some true) (Some false) None (Some 5%Q)))
              (mkClock 100 101 102 103)
              [TimerFires Jxl 105; TimerFires Avif 105; ImageFails Jxl 106;
               ImageLoads Avif 108]
              (mkDetection (FullConfig.mk true false true 5) 100
                           (Result.mk (Some true) None (Some false) 8)
                           [] [] [2; 6; 8]
                           [Result.mk (Some true) None (Some false) 8])
              eq_refl) as [Hres _].
  repeat split; apply Hres.
Defined.

(** X2.  A verdict is written at most once: once a field of the result is
    [true] or [false], nothing that happens later in the run changes it. *)
Theorem verdict_written_once :
  forall (S : Type) (callback : ImageFormatResult -> S -> S)
         (config : option ImageFormatConfig) (clk : DispatchClock) (s : S)
         (tr tr' : list Event) (d d' : Detection S) (f : Format) (b : bool),
    exec callback (detectImageFormats callback config clk s) tr = Some d ->
    exec callback d tr' = Some d' ->
    verdict f (result d) = Some b ->
    verdict f (result d') = Some b.
Proof.
  intros S callback config clk s tr tr' d d' f b H H' Hv.
  assert (Hall : exec callback (detectImageFormats callback config clk s)
                      (tr ++ tr') = Some d')
    by (rewrite exec_app, H; exact H').
  rewrite (verdict_reported callback config clk s _ _ f Hall), reported_app.
  rewrite <- (verdict_reported callback config clk s _ _ f H), Hv.
  reflexivity.
Qed.

(** After jxl has failed, the later load of avif leaves jxl at [false]. *)
Lemma verdict_written_once_witness :
  verdict Jxl (Result.mk (Some true) None (Some false) 8) = Some false.
Proof.
  apply (verdict_written_once (list ImageFormatResult) record_call
           (Some (Config.mk (Some true) (Some false) None (Some 5%Q)))
           (mkClock 100 101 102 103) []
           [TimerFires Jxl 105; TimerFires Avif 105; ImageFails Jxl 106]
           [ImageLoads Avif 108]
           (mkDetection (FullConfig.mk true false true 5) 100
                        (Result.mk None None (Some false) 6)
                        [] [Avif] [2; 6] [])
           (mkDetection (FullConfig.mk true false true 5) 100
                        (Result.mk (Some true) None (Some false) 8)
                        [] [] [2; 6; 8]
                        [Result.mk (Some true) None (Some false) 8])
           Jxl false); reflexivity.
Defined.

(** X3.  The tasks of one format in any run are a prefix of: its timer
    fires, then its image loads or fails.  So no timer fires twice, no
    image reports twice or before its timer has fired, and for a disabled
    format no task ever runs: no timer, no decode. *)
Theorem probe_protocol :
  forall (S : Type) (callback : ImageFormatResult -> S -> S)
         (config : option ImageFormatConfig) (clk : DispatchClock) (s : S)
         (tr : list Event) (d : Detection S) (f : Format),
    exec callback (detectImageFormats callback config clk s) tr = Some d ->
    (events_of f tr = [] \/
     (exists t, events_of f tr = [TimerFires f t]) \/
     (exists t ok t',
         events_of f tr = [TimerFires f t; outcome_event f ok t'])) /\
    (enabled f (fullConfigOf config) = false -> events_of f tr = []) /\
    Protocol f tr d.
Proof.
  intros S callback config clk s tr d f H.
  pose proof (protocol_exec callback config clk s tr d f H) as P.
  pose proof (Wf_exec callback tr _ _
                (Wf_detectImageFormats callback config clk s) H) as W.
  destruct (exec_closure callback tr _ _ H) as [Hc _].
  destruct (detectImageFormats_initial callback config clk s) as (Hc0 & _).
  split; [|split; [|exact P]].
  - destruct P as [[_ E]|[[_ E]|[(t & _ & E)|(t & ok & t' & _ & E)]]].
    + now left.
    + now left.
    + right. left. now exists t.
    + right. right. now exists t, ok, t'.
  - intros Hd. rewrite <- Hc0, <- Hc in Hd.
    destruct P as [[_ E]|[[Hin _]|[(t & Hin & _)|(t & ok & t' & Hv & _)]]].
    + exact E.
    + destruct (Wf_timer_phase d f W Hin) as (He & _). congruence.
    + destruct (Wf_image_phase d f W Hin) as (He & _). congruence.
    + rewrite (wf_disabled d W f Hd) in Hv. discriminate.
Qed.

(** In the run above the tasks of jxl are its timer and then its failure,
    and webp, disabled, has none. *)
Lemma probe_protocol_witness :
  let tr := [TimerFires Jxl 105; TimerFires Avif 105; ImageFails Jxl 106;
             ImageLoads Avif 108] in
  events_of Webp tr = [] /\
  exists t ok t',
    events_of Jxl tr = [TimerFires Jxl t; outcome_event Jxl ok t'].
Proof.
  intros tr.
  pose (config := Some (Config.mk (Some true) (Some false) None (Some 5%Q))).
  pose (clk := mkClock 100 101 102 103).
  pose (d := mkDetection (FullConfig.mk true false true 5) 100
                         (Result.mk (Some true) None (Some false) 8)
                         [] [] [2; 6; 8]
                         [Result.mk (Some true) None (Some false) 8]).
  split.
  - apply (probe_protocol (list ImageFormatResult) record_call config clk []
             tr d Webp eq_refl). reflexivity.
  - destruct (probe_protocol (list ImageFormatResult) record_call config clk
                [] tr d Jxl eq_refl) as ([E|[(t & E)|E]] & _).
    + discriminate E.
    + discriminate E.
    + exact E.
Defined.

(** X4.  The check [callbackIfEnd] runs once per format, enabled or not:
    at every point of a run the checks done and the probes still pending
    add up to three, so a completed run has made exactly three checks. *)
Theorem one_check_per_format :
  forall (S : Type) (callback : ImageFormatResult -> S -> S)
         (config : option ImageFormatConfig) (clk : DispatchClock) (s : S)
         (tr : list Event) (d : Detection S),
    exec callback (detectImageFormats callback config clk s) tr = Some d ->
    (List.length (checks d) + List.length (pending d) = 3)%nat /\
    (quiescent d = true -> List.length (checks d) = 3%nat).
Proof.
  intros S callback config clk s tr d H.
  assert (E : (List.length (checks d) + List.length (pending d) = 3)%nat).
  { rewrite (checks_exec callback tr _ _ H).
    destruct (detectImageFormats_initial callback config clk s)
      as (_ & _ & _ & Ht & Hi).
    unfold pending.
    rewrite detectImageFormats_checks, Ht, Hi, app_nil_r, !length_map.
    rewrite Nat.add_comm.
    apply (filter_partition_length
             (fun f => enabled f (fullConfigOf config)) all_formats). }
  split; [exact E|]. intros Q. apply quiescent_pending in Q.
  rewrite Q in E. cbn in E. lia.
Qed.

(** The run with webp disabled makes three checks: one skip check and two
    after decode outcomes. *)
Lemma one_check_per_format_witness :
  List.length [2; 6; 8] = 3%nat.
Proof.
  apply (one_check_per_format (list ImageFormatResult) record_call
           (Some (Config.mk (Some true) (Some false) None (Some 5%Q)))
           (mkClock 100 101 102 103) []
           [TimerFires Jxl 105; TimerFires Avif 105; ImageFails Jxl 106;
            ImageLoads Avif 108]
           (mkDetection (FullConfig.mk true false true 5) 100
                        (Result.mk (Some true) None (Some false) 8)
                        [] [] [2; 6; 8]
                        [Result.mk (Some true) None (Some false) 8])
           eq_refl).
  reflexivity.
Defined.

(** X5.  When the clock does not go backwards (during the synchronous call
    and from task to task), [time] is always the latest measurement, and
    after a decode outcome that ran at time [t] it is [t - start]: the
    result the callback gets carries the time elapsed from the call to the
    last settlement. *)
Theorem time_is_latest_measurement :
  forall (S : Type) (callback : ImageFormatResult -> S -> S)
         (config : option ImageFormatConfig) (clk : DispatchClock) (s : S)
         (tr : list Event) (d : Detection S),
    exec callback (detectImageFormats callback config clk s) tr = Some d ->
    dispatch_chronological clk ->
    chronological (at_jxl clk) tr ->
    Result.time (result d) = List.last (checks d) 0 /\
    (forall tr' h ok t,
        tr = tr' ++ [outcome_event h ok t] ->
        Result.time (result d) = t - at_start clk).
Proof.
  intros S callback config clk s tr d H DC C.
  destruct (Latest_exec callback tr (at_jxl clk) _ d
              (Latest_detectImageFormats callback config clk s DC) C H)
    as (last' & _ & _ & Hl).
  split; [exact Hl|].
  intros tr' h ok t ->. rewrite Hl.
  apply exec_snoc in H as (d0 & H0 & Hstep).
  destruct (exec_closure callback tr' _ _ H0) as [_ Hs].
  destruct (detectImageFormats_initial callback config clk s)
    as (_ & Hs0 & _).
  apply step_cases in Hstep
    as [(f & t0 & tm & rest & E & _)|(f & ok0 & t0 & rest & E & _ & ->)].
  - unfold outcome_event in E. destruct ok; discriminate E.
  - assert (Et : t0 = t)
      by (unfold outcome_event in E; destruct ok, ok0; congruence).
    subst t0. rewrite outcome_checks, last_last. congruence.
Qed.

(** In the run above the last outcome runs at 108 and [start] is 100. *)
Lemma time_is_latest_measurement_witness :
  let d := mkDetection (FullConfig.mk true false true 5) 100
                       (Result.mk (Some true) None (Some false) 8)
                       [] [] [2; 6; 8]
                       [Result.mk (Some true) None (Some false) 8] in
  Result.time (result d) = List.last (checks d) 0 /\
  Result.time (result d) = 108 - 100.
Proof.
  intros d.
  destruct (time_is_latest_measurement (list ImageFormatResult) record_call
              (Some (Config.mk (Some true) (Some false) None (Some 5%Q)))
              (mkClock 100 101 102 103) []
              [TimerFires Jxl 105; TimerFires Avif 105; ImageFails Jxl 106;
               ImageLoads Avif 108] d eq_refl) as [Hl Ht].
  - cbv. repeat split; discriminate.
  - cbn. lia.
  - split; [exact Hl|].
    apply (Ht [TimerFires Jxl 105; TimerFires Avif 105; ImageFails Jxl 106]
              Avif true 108).
    reflexivity.
Defined.

(** X6.  The synchronous call of [detectImageFormats] starts no decode and
    writes no verdict, whatever the config and even with a delay of 0: it
    registers one timer per enabled format, in the order avif, webp, jxl
    and each with the configured delay, and takes one measurement per
    disabled format. *)
Theorem dispatch_defers_every_probe :
  forall (S : Type) (callback : ImageFormatResult -> S -> S)
         (config : option ImageFormatConfig) (clk : DispatchClock) (s : S),
    let d := detectImageFormats callback config clk s in
    let c := fullConfigOf config in
    timers d = map (fun f => mkTimer f (FullConfig.delay c))
                   (filter (fun f => enabled f c) all_formats) /\
    images d = [] /\
    (forall f, verdict f (result d) = None) /\
    checks d = map (fun f => at_format f clk - at_start clk)
                   (filter (fun f => negb (enabled f c)) all_formats) /\
    (forall e, step callback d e <> None ->
               exists f t, e = TimerFires f t /\ enabled f c = true).
Proof.
  intros S callback config clk s d c.
  destruct (detectImageFormats_initial callback config clk s)
    as (Hc & _ & Hv & Ht & Hi).
  split; [exact Ht|]. split; [exact Hi|]. split; [exact Hv|].
  split; [apply detectImageFormats_checks|].
  intros e He. subst d.
  destruct e as [f t|f t|f t]; cbn in He.
  - exists f, t. split; [reflexivity|].
    destruct (take_timer f (timers (detectImageFormats callback config clk s)))
      as [[tm rest]|] eqn:E; [|congruence].
    destruct (take_timer_perm _ _ _ _ E) as [Hp HP].
    assert (Hin : In tm (timers (detectImageFormats callback config clk s))).
    { apply (Permutation_in _ (Permutation_sym HP)). now left. }
    rewrite Ht in Hin. apply in_map_iff in Hin as (g & <- & Hg).
    apply filter_In in Hg as [_ Hg]. cbn in Hp. now subst g.
  - rewrite Hi in He. cbn in He. congruence.
  - rewrite Hi in He. cbn in He. congruence.
Qed.

(** X7.  A run is over after two tasks per enabled format: no trace is
    longer than that, a run has nothing pending exactly when it has that
    length, and then no further task can run.  With at least one format
    enabled, once the callback has run no task can run any more: the run
    ends there, so the result the callback was given is not modified
    afterwards. *)
Theorem run_length_bound :
  (forall (S : Type) (callback : ImageFormatResult -> S -> S)
          (config : option ImageFormatConfig) (clk : DispatchClock) (s : S)
          (tr : list Event) (d : Detection S),
      exec callback (detectImageFormats callback config clk s) tr = Some d ->
      (List.length tr <= 2 * enabled_count (fullConfigOf config))%nat /\
      (quiescent d = true <->
       List.length tr = (2 * enabled_count (fullConfigOf config))%nat) /\
      (quiescent d = true -> forall e, step callback d e = None)) /\
  (forall (config : option ImageFormatConfig) (clk : DispatchClock)
          (tr : list Event) (d : Detection (list ImageFormatResult)),
      run (detect config clk) tr = Some d ->
      (exists f, enabled f (fullConfigOf config) = true) ->
      user d <> [] ->
      user d = [result d] /\
      (forall e, step record_call d e = None) /\
      (forall tr' d', run d tr' = Some d' -> tr' = [] /\ d' = d)).
Proof.
  split.
  - intros S callback config clk s tr d H.
    pose proof (budget_exec callback tr _ _ H) as B.
    destruct (detectImageFormats_initial callback config clk s)
      as (_ & _ & _ & Ht & Hi).
    rewrite Ht, Hi, length_map in B. cbn [List.length] in B.
    fold (enabled_count (fullConfigOf config)) in B.
    split; [lia|]. split.
    + split.
      * intros Q. unfold quiescent in Q.
        destruct (timers d); [|discriminate].
        destruct (images d); [|discriminate]. cbn [List.length] in B. lia.
      * intros L. unfold quiescent.
        destruct (timers d); [|cbn [List.length] in B; lia].
        destruct (images d); [reflexivity|cbn [List.length] in B; lia].
    + intros Q e. now apply quiescent_stuck.
  - intros config clk tr d H [f He] Hne.
    pose proof (Once_exec record_call [] tr _ _
                  (Wf_detectImageFormats record_call config clk [])
                  (Once_detectImageFormats record_call config clk [] f He) H)
      as O.
    unfold Once in O. destruct (quiescent d) eqn:Q; [|congruence].
    split; [exact O|].
    assert (Stuck : forall e, step record_call d e = None)
      by (intros e; now apply quiescent_stuck).
    split; [exact Stuck|].
    intros tr' d' H'. unfold run in H'. destruct tr' as [|e tr'].
    + cbn in H'. injection H' as <-. auto.
    + cbn [exec] in H'. rewrite Stuck in H'. discriminate.
Qed.

(** The run with two formats enabled has four tasks, and after its
    callback nothing can run. *)
Lemma run_length_bound_witness :
  let tr := [TimerFires Jxl 105; TimerFires Avif 105; ImageFails Jxl 106;
             ImageLoads Avif 108] in
  let d := mkDetection (FullConfig.mk true false true 5) 100
                       (Result.mk (Some true) None (Some false) 8)
                       [] [] [2; 6; 8]
                       [Result.mk (Some true) None (Some false) 8] in
  (List.length tr <= 2 * 2)%nat /\
  (forall e, step record_call d e = None).
Proof.
  intros tr d.
  pose (config := Some (Config.mk (Some true) (Some false) None (Some 5%Q))).
  pose (clk := mkClock 100 101 102 103).
  split.
  - apply (proj1 run_length_bound (list ImageFormatResult) record_call
             config clk [] tr d eq_refl).
  - apply (proj2 run_length_bound config clk tr d eq_refl).
    + exists Avif. reflexivity.
    + discriminate.
Defined.

(** The run with webp disabled: after the call only a timer can fire. *)
Lemma dispatch_defers_every_probe_witness :
  exists f t, TimerFires Jxl 105 = TimerFires f t /\
              enabled f (FullConfig.mk true false true 5) = true.
Proof.
  apply (dispatch_defers_every_probe (list ImageFormatResult) record_call
           (Some (Config.mk (Some true) (Some false) None (Some 5%Q)))
           (mkClock 100 101 102 103) []).
  cbn. discriminate.
Defined.

(** ** Further properties of the default styling helper *)

Lemma classList_add_present (token : string) (classList : list string) :
  In token classList -> classList_add token classList = classList.
Proof.
  intros H. unfold classList_add.
  destruct (existsb (String.eqb token) classList) eqn:E; [reflexivity|].
  assert (E' : existsb (String.eqb token) classList = true).
  { apply existsb_exists. exists token. split; [exact H|].
    apply String.eqb_refl. }
  congruence.
Qed.

Lemma classList_add_absent (token : string) (classList : list string) :
  ~ In token classList ->
  classList_add token classList = classList ++ [token].
Proof.
  intros H. unfold classList_add.
  destruct (existsb (String.eqb token) classList) eqn:E; [|reflexivity].
  apply existsb_exists in E as (x & Hx & Ex).
  apply String.eqb_eq in Ex. subst x. contradiction.
Qed.

Lemma classList_add_NoDup (token : string) (classList : list string) :
  NoDup classList -> NoDup (classList_add token classList).
Proof.
  intros ND. unfold classList_add.
  destruct (existsb (String.eqb token) classList) eqn:E; [exact ND|].
  apply (Permutation_NoDup (Permutation_cons_append classList token)).
  constructor; [|exact ND]. intros Hin.
  assert (E' : existsb (String.eqb token) classList = true).
  { apply existsb_exists. exists token. split; [exact Hin|].
    apply String.eqb_refl. }
  congruence.
Qed.

Lemma mark_present (f : Format) (v : option bool) (body : list string) :
  (forall b, v = Some b -> In (marker f b) body) -> mark f v body = body.
Proof.
  intros H. unfold mark. destruct v as [b|]; [|reflexivity].
  apply classList_add_present. now apply H.
Qed.

Lemma mark_absent (f : Format) (v : option bool) (body : list string) :
  (forall b, ~ In (marker f b) body) -> mark f v body = body ++ slot f v.
Proof.
  intros H. unfold mark, slot. destruct v as [b|].
  - apply classList_add_absent, H.
  - now rewrite app_nil_r.
Qed.

Lemma mark_NoDup (f : Format) (v : option bool) (body : list string) :
  NoDup body -> NoDup (mark f v body).
Proof.
  intros ND. unfold mark. destruct v; [now apply classList_add_NoDup|exact ND].
Qed.

Lemma slot_In (f g : Format) (v : option bool) (b : bool) :
  In (marker g b) (slot f v) -> f = g.
Proof.
  unfold slot. destruct v as [c|]; [|contradiction].
  intros [H|[]]. now apply marker_inj in H as [-> _].
Qed.

(** The handler on a body that carries none of the six markers appends
    the markers of the definite verdicts, in the order avif, webp, jxl. *)
Lemma onDetected_fresh (r : ImageFormatResult) (body : list string) :
  (forall f b, ~ In (marker f b) body) ->
  onDetected r body = body ++ markers r.
Proof.
  intros H. rewrite onDetected_mark.
  rewrite (mark_absent Avif _ body (H Avif)).
  rewrite (mark_absent Webp).
  - rewrite (mark_absent Jxl).
    + unfold markers, all_formats. cbn [flat_map verdict].
      now rewrite app_nil_r, <- !app_assoc.
    + intros b Hin. apply in_app_or in Hin as [Hin|Hin].
      * apply in_app_or in Hin as [Hin|Hin]; [now apply (H Jxl b)|].
        apply slot_In in Hin. discriminate.
      * apply slot_In in Hin. discriminate.
  - intros b Hin. apply in_app_or in Hin as [Hin|Hin]; [now apply (H Webp b)|].
    apply slot_In in Hin. discriminate.
Qed.

(** X8.  Running the handler again on its own output changes nothing, and
    it never introduces a duplicate: detecting twice on the same page with
    the same outcome leaves the class list as after the first time. *)
Theorem handler_idempotent :
  forall (r : ImageFormatResult) (body : list string),
    onDetected r (onDetected r body) = onDetected r body /\
    (NoDup body -> NoDup (onDetected r body)).
Proof.
  intros r body. split.
  - set (body' := onDetected r body).
    assert (Hin : forall f b, verdict f r = Some b -> In (marker f b) body').
    { intros f b Hb. apply onDetected_In. right. now exists f, b. }
    rewrite (onDetected_mark r body').
    rewrite (mark_present Avif (Result.avif r) body' (Hin Avif)).
    rewrite (mark_present Webp (Result.webp r) body' (Hin Webp)).
    apply (mark_present Jxl (Result.jxl r) body' (Hin Jxl)).
  - intros ND. rewrite onDetected_mark. now repeat apply mark_NoDup.
Qed.

Lemma handler_idempotent_witness :
  NoDup (onDetected (Result.mk (Some true) None (Some false) 8)
                    ["page"%string]).
Proof.
  apply (handler_idempotent (Result.mk (Some true) None (Some false) 8)
                            ["page"%string]).
  repeat constructor. simpl. tauto.
Defined.

(** X9.  On a body that carries none of the six marker classes the handler
    appends exactly the markers of the definite verdicts, after the
    existing classes and in the order avif, webp, jxl. *)
Theorem handler_appends_in_order :
  forall (r : ImageFormatResult) (body : list string),
    (forall f b, ~ In (marker f b) body) ->
    onDetected r body = body ++ markers r /\
    List.length (onDetected r body) =
    (List.length body +
     List.length (filter (fun f => not_null (verdict f r)) all_formats))%nat.
Proof.
  intros r body H. rewrite (onDetected_fresh r body H). split; [reflexivity|].
  rewrite length_app. f_equal. unfold markers, all_formats.
  cbn [flat_map filter verdict].
  destruct (Result.avif r), (Result.webp r), (Result.jxl r); reflexivity.
Qed.

Lemma handler_appends_in_order_witness :
  onDetected (Result.mk (Some true) None (Some false) 8) ["page"%string]
  = ["page"%string; "has-avif"%string; "no-jxl"%string].
Proof.
  apply (handler_appends_in_order
           (Result.mk (Some true) None (Some false) 8) ["page"%string]).
  intros f b [H|[]]. destruct f, b; discriminate H.
Defined.

(** X10.  A completed run of [detectImageFormatsDefault] on a body without
    marker classes leaves the body with its old classes followed by one
    marker per format, avif then webp then jxl, each [has-] or [no-]
    according to what the platform reported for that format; in
    particular, if every image loaded, [has-avif has-webp has-jxl]. *)
Theorem default_detection_end_to_end :
  forall (clk : DispatchClock) (body : list string) (tr : list Event)
         (d : Detection (list string)),
    exec onDetected (detectImageFormatsDefault clk body) tr = Some d ->
    quiescent d = true ->
    (forall f b, ~ In (marker f b) body) ->
    exists a w j,
      reported Avif tr = Some a /\ reported Webp tr = Some w /\
      reported Jxl tr = Some j /\
      user d = body ++ [marker Avif a; marker Webp w; marker Jxl j].
Proof.
  intros clk body tr d H Q Hfresh. unfold detectImageFormatsDefault in H.
  set (config := Some (Config.mk (Some true) (Some true) (Some true)
                                 (Some 0%Q))) in *.
  pose proof (Wf_detectImageFormats onDetected config clk body) as W0.
  pose proof (Wf_exec onDetected tr _ _ W0 H) as W.
  pose proof (Once_exec onDetected body tr _ _ W0
                (Once_detectImageFormats onDetected config clk body Avif
                                         eq_refl) H) as O.
  unfold Once in O. rewrite Q in O.
  assert (Hdef : forall f, exists b, reported f tr = Some b /\
                                     verdict f (result d) = Some b).
  { intros f.
    pose proof (verdict_reported onDetected config clk body tr d f H) as V.
    pose proof Q as A.
    rewrite <- (settled_quiescent d W), all_settled_spec in A.
    destruct (exec_closure onDetected tr _ _ H) as [Hc _].
    destruct (detectImageFormats_initial onDetected config clk body)
      as (Hc0 & _).
    assert (He : enabled f (fullConfig d) = true)
      by (rewrite Hc, Hc0; destruct f; reflexivity).
    specialize (A f He). destruct (verdict f (result d)) as [b|];
      [|congruence]. exists b. auto. }
  destruct (Hdef Avif) as (a & Ra & Va).
  destruct (Hdef Webp) as (w & Rw & Vw).
  destruct (Hdef Jxl) as (j & Rj & Vj).
  exists a, w, j. repeat split; auto.
  rewrite O, (onDetected_fresh _ body Hfresh).
  unfold markers, all_formats. cbn [flat_map]. now rewrite Va, Vw, Vj.
Qed.

Lemma default_detection_end_to_end_witness :
  exists a w j,
    reported Avif [TimerFires Avif 0; TimerFires Webp 1; TimerFires Jxl 1;
                   ImageLoads Webp 2; ImageLoads Jxl 3; ImageLoads Avif 3]
    = Some a /\
    reported Webp [TimerFires Avif 0; TimerFires Webp 1; TimerFires Jxl 1;
                   ImageLoads Webp 2; ImageLoads Jxl 3; ImageLoads Avif 3]
    = Some w /\
    reported Jxl [TimerFires Avif 0; TimerFires Webp 1; TimerFires Jxl 1;
                  ImageLoads Webp 2; ImageLoads Jxl 3; ImageLoads Avif 3]
    = Some j /\
    ["page"%string; "has-avif"%string; "has-webp"%string; "has-jxl"%string]
    = ["page"%string] ++ [marker Avif a; marker Webp w; marker Jxl j].
Proof.
  apply (default_detection_end_to_end (mkClock 0 0 0 0) ["page"%string]
           [TimerFires Avif 0; TimerFires Webp 1; TimerFires Jxl 1;
            ImageLoads Webp 2; ImageLoads Jxl 3; ImageLoads Avif 3]
           (mkDetection (FullConfig.mk true true true 0) 0
                        (Result.mk (Some true) (Some true) (Some true) 3)
                        [] [] [2; 3; 3]
                        ["page"%string; "has-avif"%string;
                         "has-webp"%string; "has-jxl"%string])).
  - reflexivity.
  - reflexivity.
  - intros f b [H|[]]. destruct f, b; discriminate H.
Defined.

(** ** The untyped build and the document parameter *)

Lemma fullConfigOfJs_normalize (arg : JsConfigArg) :
  fullConfigOfJs arg = fullConfigOf (normalize arg).
Proof. destruct arg as [| |c]; reflexivity. Qed.

Lemma fullConfigOfJs_typed (config : option ImageFormatConfig) :
  fullConfigOfJs (js_of_config config) = fullConfigOf config.
Proof.
  destruct config as [[[a|] [w|] [j|] [ms|]]|]; reflexivity.
Qed.

Lemma detectImageFormatsJs_fullConfig {S : Type}
      (callback : ImageFormatResult -> S -> S) (arg : JsConfigArg)
      (config : option ImageFormatConfig) (clk : DispatchClock) (s : S) :
  fullConfigOfJs arg = fullConfigOf config ->
  detectImageFormatsJs callback arg clk s =
  detectImageFormats callback config clk s.
Proof.
  intros E. unfold detectImageFormatsJs, detectImageFormats. now rewrite E.
Qed.

(** X11.  The compiled [detectImageFormats] called from untyped code
    behaves, for every config argument, like the typed one on a normalised
    config, and like the typed one itself on the configs TypeScript
    allows.  A [null] config counts as omitted; a flag set to [null] (or
    any falsy value) disables its format while a flag left [undefined]
    enables it; a [null] delay counts as 0. *)
Theorem untyped_config_normalizes :
  forall (S : Type) (callback : ImageFormatResult -> S -> S)
         (clk : DispatchClock) (s : S),
    (forall arg,
        detectImageFormatsJs callback arg clk s =
        detectImageFormats callback (normalize arg) clk s) /\
    (forall config,
        detectImageFormatsJs callback (js_of_config config) clk s =
        detectImageFormats callback config clk s) /\
    detectImageFormatsJs callback ArgNull clk s =
    detectImageFormats callback None clk s /\
    (forall a w j ms,
        detectImageFormatsJs callback
          (ArgObject (mkJsConfig a w j JsNull)) clk s =
        detectImageFormats callback
          (normalize (ArgObject (mkJsConfig a w j (JsNumber 0)))) clk s /\
        (a = JsNull \/ a = JsBoolean false \/ a = JsNumber 0 ->
         enabled Avif (fullConfigOfJs (ArgObject (mkJsConfig a w j ms)))
         = false) /\
        (w = JsNull \/ w = JsBoolean false \/ w = JsNumber 0 ->
         enabled Webp (fullConfigOfJs (ArgObject (mkJsConfig a w j ms)))
         = false) /\
        (j = JsNull \/ j = JsBoolean false \/ j = JsNumber 0 ->
         enabled Jxl (fullConfigOfJs (ArgObject (mkJsConfig a w j ms)))
         = false) /\
        enabled Avif (fullConfigOfJs
                        (ArgObject (mkJsConfig JsUndefined w j ms))) = true /\
        enabled Webp (fullConfigOfJs
                        (ArgObject (mkJsConfig a JsUndefined j ms))) = true /\
        enabled Jxl (fullConfigOfJs
                       (ArgObject (mkJsConfig a w JsUndefined ms))) = true).
Proof.
  intros S callback clk s. split; [|split; [|split]].
  - intros arg. apply detectImageFormatsJs_fullConfig,
                  fullConfigOfJs_normalize.
  - intros config. apply detectImageFormatsJs_fullConfig,
                     fullConfigOfJs_typed.
  - reflexivity.
  - intros a w j ms. split; [reflexivity|].
    repeat split; try reflexivity;
      intros [ -> | [ -> | -> ] ]; reflexivity.
Qed.

(** An untyped config with a [null] flag and a [null] delay. *)
Lemma untyped_config_normalizes_witness :
  enabled Webp
    (fullConfigOfJs
       (ArgObject (mkJsConfig (JsBoolean true) JsNull JsUndefined JsNull)))
  = false.
Proof.
  apply (untyped_config_normalizes unit (fun _ u => u) (mkClock 0 0 0 0) tt).
  left. reflexivity.
Defined.

(** X12.  [detectImageFormatsDefault] changes the class list of one
    document only: the one passed, or the ambient document when none is
    passed.  Every other document keeps its classes throughout the run,
    and the chosen one is untouched until every probe has settled. *)
Theorem default_detection_touches_one_document :
  forall (document : nat) (arg : option nat) (clk : DispatchClock)
         (dom : Dom) (tr : list Event) (d : Detection Dom),
    let target := match arg with
                  | Some x => x
                  | None => document
                  end in
    exec (onDetectedIn target)
         (detectImageFormatsDefaultOn document arg clk dom) tr = Some d ->
    (forall x, x <> target -> user d x = dom x) /\
    user d target = (if quiescent d
                     then onDetected (result d) (dom target)
                     else dom target) /\
    detectImageFormatsDefaultOn document None clk dom =
    detectImageFormatsDefaultOn document (Some document) clk dom.
Proof.
  intros document arg clk dom tr d target H.
  unfold detectImageFormatsDefaultOn in H. fold target in H.
  set (config := Some (Config.mk (Some true) (Some true) (Some true)
                                 (Some 0%Q))) in *.
  pose proof (Once_exec (onDetectedIn target) dom tr _ _
                (Wf_detectImageFormats (onDetectedIn target) config clk dom)
                (Once_detectImageFormats (onDetectedIn target) config clk
                                         dom Avif eq_refl) H) as O.
  unfold Once in O. split; [|split; [|reflexivity]].
  - intros x Hx. rewrite O.
    destruct (quiescent d); [|reflexivity].
    unfold onDetectedIn. apply Nat.eqb_neq in Hx. now rewrite Hx.
  - rewrite O. destruct (quiescent d); [|reflexivity].
    unfold onDetectedIn. now rewrite Nat.eqb_refl.
Qed.

(** Detection on document 1 of a page whose ambient document is 0. *)
Lemma default_detection_touches_one_document_witness :
  let dom : Dom := fun x => if Nat.eqb x 0 then ["page"%string] else [] in
  let r := Result.mk (Some true) (Some true) (Some false) 3 in
  onDetectedIn 1 r dom 0%nat = dom 0%nat /\
  onDetectedIn 1 r dom 1%nat = onDetected r (dom 1%nat).
Proof.
  intros dom r.
  destruct (default_detection_touches_one_document 0 (Some 1%nat)
              (mkClock 0 0 0 0) dom
              [TimerFires Avif 0; TimerFires Webp 1; TimerFires Jxl 1;
               ImageLoads Webp 2; ImageFails Jxl 3; ImageLoads Avif 3]
              (mkDetection (FullConfig.mk true true true 0) 0 r
                           [] [] [2; 3; 3] (onDetectedIn 1 r dom))
              eq_refl) as (Hother & Htarget & _).
  split; [apply Hother; discriminate|exact Htarget].
Defined.
